(** * Verification of the R2 quota controller (src/index.ts)

    A shallow embedding of the Cloudflare Worker that samples R2 usage,
    compares it with per-metric quotas and re-enable thresholds, and toggles
    an access key with hysteresis.  The embedded version is the multi-metric
    one (storage, Class A and Class B requests).

    Layout:
    - [JS]: the ECMAScript values and built-ins the worker relies on
      (IEEE-754 binary64 numbers, strings, JSON trees);
    - the worker's functions, in source order of dependency;
    - a state-and-exception monad for the worker's effects (HTTP requests,
      the KV namespace, the console);
    - the theorems. *)

From Stdlib Require Import ZArith List Bool Ascii String Lia.
From Stdlib Require Import DecimalString DecimalNat.
From Stdlib Require Import Floats.SpecFloat.
From stdpp Require Import gmap strings.
Import ListNotations.
Open Scope string_scope.

(* ===================================================================== *)
(** * ECMAScript values and built-ins *)
(* ===================================================================== *)

Module JS.

(** ** Numbers: IEEE-754 binary64, round to nearest even *)

Definition prec : Z := 53.
Definition emax : Z := 1024.

Definition number : Type := spec_float.

Definition NaN : number := S754_nan.
Definition ofZ (z : Z) : number := binary_normalize prec emax z 0 false.

Definition mul (x y : number) : number := SFmul prec emax x y.
Definition div (x y : number) : number := SFdiv prec emax x y.

(** [x < y], [x <= y], [x > y], [x >= y]: false as soon as one side is NaN. *)
Definition lt (x y : number) : bool := SFltb x y.
Definition le (x y : number) : bool := SFleb x y.
Definition gt (x y : number) : bool := SFltb y x.
Definition ge (x y : number) : bool := SFleb y x.

(** [Number.isFinite] on a value that is a number. *)
Definition isFinite (x : number) : bool :=
  match x with
  | S754_zero _ | S754_finite _ _ _ => true
  | S754_infinity _ | S754_nan => false
  end.

(** [Math.floor]: zeros, infinities and NaN are fixed points; a finite value
    with a non-negative exponent is already integral; otherwise the signed
    mantissa is shifted right (rounding towards minus infinity). *)
Definition floor (x : number) : number :=
  match x with
  | S754_finite s m e =>
      if (0 <=? e)%Z then x
      else binary_normalize prec emax
             (Z.shiftr (cond_Zopp s (Zpos m)) (- e)) 0 s
  | _ => x
  end.

(** The decimal literals [0.9] and [0.8] of the source, as the nearest
    binary64 values. *)
Definition lit_0_9 : number := Eval cbv in div (ofZ 9) (ofZ 10).
Definition lit_0_8 : number := Eval cbv in div (ofZ 8) (ofZ 10).

(** ** Strings *)

(** [keys.includes(key)] on an array of strings. *)
Definition includes (keys : list string) (key : string) : bool :=
  existsb (String.eqb key) keys.

(** [parts.join(sep)]. *)
Fixpoint join (sep : string) (parts : list string) : string :=
  match parts with
  | [] => ""
  | [p] => p
  | p :: rest => p ++ sep ++ join sep rest
  end.

(** [s || fallback] on strings: the empty string is falsy. *)
Definition orElse (s fallback : string) : string :=
  if String.eqb s "" then fallback else s.

(** [!value] for a value of type [string | undefined]. *)
Definition falsy (value : option string) : bool :=
  match value with
  | None => true
  | Some s => String.eqb s ""
  end.

(** Template-literal rendering of a non-negative integer such as an array
    index or an HTTP status code. *)
Definition showNat (n : nat) : string :=
  NilEmpty.string_of_uint (Nat.to_uint n).

(** ** JSON trees, as produced by [response.json()] *)

(** An object is the list of its own enumerable entries in the order
    [Object.entries] enumerates them (keys that are array indices first, in
    ascending order, then the other keys in insertion order); the entries
    of an array are its elements, keyed by their index. *)
#[local] Set Warnings "-register-all".
Inductive value : Type :=
| Null
| Bool (b : bool)
| Num (n : number)
| Str (s : string)
| Arr (items : list value)
| Obj (fields : list (string * value)).

(** [typeof v === "object"]: objects, arrays and [null]. *)
Definition typeofObject (v : value) : bool :=
  match v with
  | Null | Arr _ | Obj _ => true
  | _ => false
  end.

(** [typeof v === "number" && Number.isFinite(v)]. *)
Definition finiteNumber (v : value) : option number :=
  match v with
  | Num n => if isFinite n then Some n else None
  | _ => None
  end.

(** Property read [v.name] on an object; [None] is [undefined]. *)
Fixpoint lookupField (name : string) (fields : list (string * value))
  : option value :=
  match fields with
  | [] => None
  | (k, v) :: rest => if String.eqb k name then Some v else lookupField name rest
  end.

(** Induction over trees, with the hypotheses for the children. *)
Section ValueInd.
Variable P : value -> Prop.
Hypothesis HNull : P Null.
Hypothesis HBool : forall b, P (Bool b).
Hypothesis HNum : forall n, P (Num n).
Hypothesis HStr : forall s, P (Str s).
Hypothesis HArr : forall items, Forall P items -> P (Arr items).
Hypothesis HObj : forall fields, Forall (fun kv => P (snd kv)) fields -> P (Obj fields).

Fixpoint value_ind' (v : value) : P v :=
  match v with
  | Null => HNull
  | Bool b => HBool b
  | Num n => HNum n
  | Str s => HStr s
  | Arr items =>
      HArr items
        ((fix go (l : list value) : Forall P l :=
            match l with
            | [] => @List.Forall_nil _ P
            | x :: l' => @List.Forall_cons _ P x l' (value_ind' x) (go l')
            end) items)
  | Obj fields =>
      HObj fields
        ((fix go (l : list (string * value)) : Forall (fun kv => P (snd kv)) l :=
            match l with
            | [] => @List.Forall_nil _ (fun kv => P (snd kv))
            | kv :: l' =>
                @List.Forall_cons _ (fun kv => P (snd kv)) kv l'
                  (value_ind' (snd kv)) (go l')
            end) fields)
  end.
End ValueInd.

End JS.

Import JS.

(* ===================================================================== *)
(** * Metric extractor *)
(* ===================================================================== *)

Definition CANDIDATE_USAGE_KEYS : list string :=
  [ "usageBytes"; "usage_bytes"; "used_bytes"; "storedBytes"; "stored_bytes";
    "storageBytes"; "storage_bytes"; "storageUsageBytes"; "size_bytes";
    "sizeBytes"; "total_usage_bytes"; "totalUsageBytes" ].

Definition CANDIDATE_CLASS_A_KEYS : list string :=
  [ "classARequests"; "class_a_requests"; "classAOperations";
    "class_a_operations"; "classA_ops"; "class_a_ops"; "classA";
    "requestsClassA"; "request_class_a" ].

Definition CANDIDATE_CLASS_B_KEYS : list string :=
  [ "classBRequests"; "class_b_requests"; "classBOperations";
    "class_b_operations"; "classB_ops"; "class_b_ops"; "classB";
    "requestsClassB"; "request_class_b" ].

(** One iteration of the [for (const [key, nested] of Object.entries(value))]
    loop of [findFirstNumberByKeys]: [self] is the recursive call on [nested],
    [each] the result of the inner [for (const item of nested)] loop, and
    [next] the remaining iterations. *)
Definition visitEntry (keys : list string) (key : string) (nested : value)
    (self each next : option number) : option number :=
  match (if includes keys key then finiteNumber nested else None) with
  | Some n => Some n
  | None =>
      match (if typeofObject nested then self else None) with
      | Some candidate => Some candidate
      | None =>
          match (match nested with Arr _ => each | _ => None end) with
          | Some candidate => Some candidate
          | None => next
          end
      end
  end.

(** [findFirstNumberByKeys(value, keys)]; [None] is [null]. *)
Fixpoint findFirstNumberByKeys (v : value) (keys : list string) {struct v}
  : option number :=
  let eachItem :=
    fix eachItem (items : list value) : option number :=
      match items with
      | [] => None
      | item :: rest =>
          match findFirstNumberByKeys item keys with
          | Some candidate => Some candidate
          | None => eachItem rest
          end
      end in
  let inner (nested : value) : option number :=
    match nested with
    | Arr items => eachItem items
    | _ => None
    end in
  match v with
  | Obj fields =>
      (fix loop (es : list (string * value)) : option number :=
         match es with
         | [] => None
         | (key, nested) :: rest =>
             visitEntry keys key nested
               (findFirstNumberByKeys nested keys) (inner nested) (loop rest)
         end) fields
  | Arr items =>
      (fix loop (i : nat) (es : list value) : option number :=
         match es with
         | [] => None
         | nested :: rest =>
             visitEntry keys (showNat i) nested
               (findFirstNumberByKeys nested keys) (inner nested)
               (loop (S i) rest)
         end) 0 items
  | _ => None
  end.

(** [extractMetric(payload, keys)]; [None] is [undefined].  An array has no
    [result] property, and [??] passes over a [result] that is [null]. *)
Definition extractMetric (payload : value) (keys : list string) : option number :=
  match payload with
  | Num n => if isFinite n then Some n else None
  | Obj fields =>
      let maybeResult :=
        match lookupField "result" fields with
        | None | Some Null => payload
        | Some result => result
        end in
      findFirstNumberByKeys maybeResult keys
  | Arr _ => findFirstNumberByKeys payload keys
  | Null | Bool _ | Str _ => None
  end.

Definition extractUsageBytes (payload : value) : option number :=
  extractMetric payload CANDIDATE_USAGE_KEYS.
Definition extractClassARequests (payload : value) : option number :=
  extractMetric payload CANDIDATE_CLASS_A_KEYS.
Definition extractClassBRequests (payload : value) : option number :=
  extractMetric payload CANDIDATE_CLASS_B_KEYS.

(* ===================================================================== *)
(** * Data model *)
(* ===================================================================== *)

(** [type AccessKeyStatus = "enabled" | "disabled"]. *)
Inductive AccessKeyStatus : Type := enabled | disabled.

Definition statusEqb (a b : AccessKeyStatus) : bool :=
  match a, b with
  | enabled, enabled | disabled, disabled => true
  | _, _ => false
  end.

(** The string a status is in template literals and JSON. *)
Definition statusText_of (s : AccessKeyStatus) : string :=
  match s with
  | enabled => "enabled"
  | disabled => "disabled"
  end.

(** [MetricThreshold["name"]]. *)
Inductive MetricName : Type := storage | classA | classB.

Definition nameEqb (a b : MetricName) : bool :=
  match a, b with
  | storage, storage | classA, classA | classB, classB => true
  | _, _ => false
  end.

Record UsageSnapshot : Type := {
  storageBytes : option number;
  classARequests : option number;
  classBRequests : option number
}.

Record MetricThreshold : Type := {
  name : MetricName;
  usage : option number;
  quota : option number;
  reenable : option number;
  formatter : option number -> string
}.

Record ThresholdSnapshot : Type := {
  ts_name : MetricName;
  ts_usage : option number;
  ts_quota : option number;
  ts_reenable : option number
}.

Record StoredState : Type := {
  accessKeyStatus : AccessKeyStatus;
  lastUsageBytes : option number;
  quotaBytes : option number;
  reenableThresholdBytes : option number;
  lastClassARequests : option number;
  classAQuota : option number;
  classAReenableThreshold : option number;
  lastClassBRequests : option number;
  classBQuota : option number;
  classBReenableThreshold : option number;
  updatedAt : string;
  message : string
}.

Record RunResult : Type := {
  success : bool;
  rr_accessKeyStatus : AccessKeyStatus;
  rr_usage : UsageSnapshot;
  rr_thresholds : list ThresholdSnapshot;
  rr_updatedAt : string;
  rr_message : string
}.

(** The configuration part of [Env]; the KV binding lives in the world. *)
Record Env : Type := {
  CF_ACCOUNT_ID : string;
  CF_API_TOKEN : string;
  R2_ACCESS_KEY_ID : string;
  QUOTA_BYTES : option string;
  REENABLE_THRESHOLD : option string;
  CLASS_A_QUOTA : option string;
  CLASS_A_REENABLE_THRESHOLD : option string;
  CLASS_B_QUOTA : option string;
  CLASS_B_REENABLE_THRESHOLD : option string
}.

Definition API_BASE : string := "https://api.cloudflare.com/client/v4".
Definition STATE_KEY : string := "quota-controller".

(* ===================================================================== *)
(** * Effects: HTTP, the KV namespace, the console *)
(* ===================================================================== *)

(** A request as passed to [fetch]. *)
Record Request : Type := {
  method : string;
  endpoint : string;
  headers : list (string * string);
  body : option string
}.

(** What the worker reads from a [Response]; [payload] is the parsed JSON
    body at the type the source gives it. *)
Record Response (A : Type) : Type := {
  ok : bool;
  status : nat;
  statusText : string;
  payload : A
}.
Arguments ok {A} _.
Arguments status {A} _.
Arguments statusText {A} _.
Arguments payload {A} _.

(** The body of the access-key lookup, at the type of the source's cast
    [{ result?: { status?: AccessKeyStatus } }]; [None] is a missing (or
    null) member. *)
Record AccessKeyResult : Type := { ak_status : option AccessKeyStatus }.
Record AccessKeyPayload : Type := { ak_result : option AccessKeyResult }.

(** The world a run acts on: the remote services as answers to the three
    requests the worker makes, the clock, and what the run changes, namely
    the KV namespace, the log of requests sent and the console. *)
Record World : Type := {
  usageResponse : Response value;
  accessKeyResponse : Response (option AccessKeyPayload);
  updateResponse : AccessKeyStatus -> Response string;
  now : string;
  STATE_KV : gmap string StoredState;
  requests : list Request;
  console : list string
}.

Definition withKV (kv : gmap string StoredState) (w : World) : World :=
  {| usageResponse := usageResponse w; accessKeyResponse := accessKeyResponse w;
     updateResponse := updateResponse w; now := now w;
     STATE_KV := kv; requests := requests w; console := console w |}.

Definition withRequest (r : Request) (w : World) : World :=
  {| usageResponse := usageResponse w; accessKeyResponse := accessKeyResponse w;
     updateResponse := updateResponse w; now := now w;
     STATE_KV := STATE_KV w; requests := requests w ++ [r]; console := console w |}.

Definition withConsole (line : string) (w : World) : World :=
  {| usageResponse := usageResponse w; accessKeyResponse := accessKeyResponse w;
     updateResponse := updateResponse w; now := now w;
     STATE_KV := STATE_KV w; requests := requests w; console := console w ++ [line] |}.

(** A computation either returns or throws [new Error(message)]. *)
Inductive outcome (A : Type) : Type :=
| Returned (a : A)
| Thrown (error : string).
Arguments Returned {A} _.
Arguments Thrown {A} _.

Definition Task (A : Type) : Type := World -> outcome A * World.

Definition ret {A} (a : A) : Task A := fun w => (Returned a, w).
Definition throw {A} (error : string) : Task A := fun w => (Thrown error, w).
Definition bind {A B} (t : Task A) (k : A -> Task B) : Task B :=
  fun w =>
    match t w with
    | (Returned a, w') => k a w'
    | (Thrown e, w') => (Thrown e, w')
    end.
Definition lift {A} (o : outcome A) : Task A := fun w => (o, w).

Declare Scope task_scope.
Delimit Scope task_scope with task.
Notation "x <- t ;; k" := (bind t (fun x => k))
  (at level 100, t at next level, right associativity) : task_scope.
Notation "t ;;; k" := (bind t (fun _ => k))
  (at level 100, right associativity) : task_scope.
Open Scope task_scope.

Definition when (c : bool) (t : Task unit) : Task unit :=
  if c then t else ret tt.

Definition warn (line : string) : Task unit :=
  fun w => (Returned tt, withConsole line w).
Definition send (r : Request) : Task unit :=
  fun w => (Returned tt, withRequest r w).
Definition ask {A} (f : World -> A) : Task A :=
  fun w => (Returned (f w), w).
Definition kvGet (key : string) : Task (option StoredState) :=
  fun w => (Returned (STATE_KV w !! key), w).
(** [STATE_KV.put(key, JSON.stringify(state))], read back by
    [STATE_KV.get(key, "json")]: the namespace holds the record itself. *)
Definition kvPut (key : string) (state : StoredState) : Task unit :=
  fun w => (Returned tt, withKV (<[key := state]> (STATE_KV w)) w).

Definition authHeaders (token : string) : list (string * string) :=
  [ ("Authorization", "Bearer " ++ token); ("Content-Type", "application/json") ].

(* ===================================================================== *)
(** * Configuration parsing and threshold resolution *)
(* ===================================================================== *)

(** The built-ins whose results the worker only passes on: string to number
    conversion and number formatting. *)
Class Builtins : Type := {
  Number : string -> number;
  toFixed : number -> nat -> string;
  toLocaleString : number -> string
}.

(** Characters and the two regular expressions of [parseSizeToBytes].  A
    [string] holds the UTF-8 bytes of the JavaScript string, so a character
    above U+007F takes two or three bytes.  [\d] (no [u] flag) is the ten
    ASCII digits; the [i] flag (no [u] flag) lets the ASCII letters of the
    units match in either case and nothing else. *)
Definition isDigit (c : ascii) : bool :=
  let n := nat_of_ascii c in (48 <=? n)%nat && (n <=? 57)%nat.

(** White space and line terminators, which [String.prototype.trim] strips
    and [\s] matches.  In one byte: U+0009 to U+000D and U+0020. *)
Definition isSpace (c : ascii) : bool :=
  let n := nat_of_ascii c in ((9 <=? n)%nat && (n <=? 13)%nat) || (n =? 32)%nat.

(** In two bytes: U+00A0 (C2 A0). *)
Definition isSpace2 (c d : ascii) : bool :=
  (nat_of_ascii c =? 194)%nat && (nat_of_ascii d =? 160)%nat.

(** In three bytes: U+1680 (E1 9A 80), U+2000 to U+200A (E2 80 80 to
    E2 80 8A), U+2028 and U+2029 (E2 80 A8, E2 80 A9), U+202F (E2 80 AF),
    U+205F (E2 81 9F), U+3000 (E3 80 80) and U+FEFF (EF BB BF). *)
Definition isSpace3 (c d e : ascii) : bool :=
  let a := nat_of_ascii c in
  let b := nat_of_ascii d in
  let k := nat_of_ascii e in
  if (a =? 225)%nat then (b =? 154)%nat && (k =? 128)%nat
  else if (a =? 226)%nat then
    if (b =? 128)%nat then
      ((128 <=? k)%nat && (k <=? 138)%nat)
      || (k =? 168)%nat || (k =? 169)%nat || (k =? 175)%nat
    else (b =? 129)%nat && (k =? 159)%nat
  else if (a =? 227)%nat then (b =? 128)%nat && (k =? 128)%nat
  else if (a =? 239)%nat then (b =? 187)%nat && (k =? 191)%nat
  else false.

Definition lowerChar (c : ascii) : ascii :=
  let n := nat_of_ascii c in
  if (65 <=? n)%nat && (n <=? 90)%nat then ascii_of_nat (n + 32) else c.

Fixpoint toLowerCase (s : string) : string :=
  match s with
  | EmptyString => EmptyString
  | String c rest => String (lowerChar c) (toLowerCase rest)
  end.

(** [s.trimStart()], also the greedy [\s*] of the size expression: white
    space characters are dropped from the front, whatever their width. *)
Fixpoint trimStart (s : string) : string :=
  match s with
  | EmptyString => EmptyString
  | String c rest =>
      if isSpace c then trimStart rest
      else
        match rest with
        | EmptyString => s
        | String d rest2 =>
            if isSpace2 c d then trimStart rest2
            else
              match rest2 with
              | EmptyString => s
              | String e rest3 =>
                  if isSpace3 c d e then trimStart rest3 else s
              end
        end
  end.

(** [s.trimEnd()]: the string is cut where only white space follows. *)
Fixpoint trimEnd (s : string) : string :=
  match s with
  | EmptyString => EmptyString
  | String c rest =>
      if String.eqb (trimStart s) "" then EmptyString
      else String c (trimEnd rest)
  end.

(** [s.trim()]. *)
Definition trim (s : string) : string := trimEnd (trimStart s).

(** The longest prefix of digits, and what follows it. *)
Fixpoint spanDigits (s : string) : string * string :=
  match s with
  | EmptyString => (EmptyString, EmptyString)
  | String c rest =>
      if isDigit c
      then let '(ds, tl) := spanDigits rest in (String c ds, tl)
      else (EmptyString, s)
  end.

(** A match of [\d+(\.\d+)?] at the start of [s]: the matched text and the
    remainder. *)
Definition matchDecimal (s : string) : option (string * string) :=
  let '(whole, rest) := spanDigits s in
  if String.eqb whole "" then None
  else
    match rest with
    | String "."%char rest1 =>
        let '(frac, rest2) := spanDigits rest1 in
        if String.eqb frac "" then Some (whole, rest)
        else Some (whole ++ "." ++ frac, rest2)
    | _ => Some (whole, rest)
    end.

(** [/^\d+(\.\d+)?$/.test(s)]. *)
Definition isPlainDecimal (s : string) : bool :=
  match matchDecimal s with
  | Some (_, EmptyString) => true
  | _ => false
  end.

Definition multipliers (unit : string) : option number :=
  if String.eqb unit "b" then Some (ofZ 1)
  else if String.eqb unit "kb" then Some (ofZ 1024)
  else if String.eqb unit "mb" then Some (ofZ (1024 ^ 2))
  else if String.eqb unit "gb" then Some (ofZ (1024 ^ 3))
  else if String.eqb unit "tb" then Some (ofZ (1024 ^ 4))
  else if String.eqb unit "pb" then Some (ofZ (1024 ^ 5))
  else None.

(** [s.match(/^(\d+(?:\.\d+)?)\s*(b|kb|mb|gb|tb|pb)?$/i)]: the first group
    and the second one, if it took part in the match. *)
Definition matchSize (s : string) : option (string * option string) :=
  match matchDecimal s with
  | None => None
  | Some (amount, rest) =>
      let unit := trimStart rest in
      if String.eqb unit "" then Some (amount, None)
      else
        match multipliers (toLowerCase unit) with
        | Some _ => Some (amount, Some unit)
        | None => None
        end
  end.

(** The argument of [parseSizeToBytes]: [string | number | undefined]. *)
Inductive SizeValue : Type :=
| SizeNumber (n : number)
| SizeString (s : string)
| SizeUndefined.

Section Resolver.
Context `{Builtins}.

Definition parseSizeToBytes (value : SizeValue) : number :=
  match value with
  | SizeNumber n => n
  | SizeUndefined => NaN
  | SizeString s =>
      if String.eqb s "" then NaN
      else
        let trimmed := trim s in
        if isPlainDecimal trimmed then Number trimmed
        else
          match matchSize trimmed with
          | None => NaN
          | Some (amountText, unitText) =>
              let amount := Number amountText in
              let unit :=
                match unitText with
                | Some u => toLowerCase u
                | None => "b"
                end in
              match multipliers unit with
              | Some multiplier => mul amount multiplier
              | None => NaN
              end
          end
  end.

Definition parseOptionalSize (value : option string) : outcome (option number) :=
  match value with
  | None => Returned None
  | Some s =>
      if String.eqb s "" then Returned None
      else
        let parsed := parseSizeToBytes (SizeString s) in
        if negb (isFinite parsed) || le parsed (ofZ 0)
        then Thrown "Invalid quota configuration (size value)"
        else Returned (Some parsed)
  end.

Definition parseOptionalNumber (value : option string) (defaultValue : option number)
  : outcome (option number) :=
  match value with
  | None => Returned defaultValue
  | Some s =>
      if String.eqb s "" then Returned defaultValue
      else
        let parsed := Number s in
        if negb (isFinite parsed) || le parsed (ofZ 0)
        then Thrown "Invalid numeric quota configuration"
        else Returned (Some parsed)
  end.

Definition determineReenable (quota override : option number) : Task (option number) :=
  match override with
  | Some o =>
      if negb (isFinite o) || lt o (ofZ 0)
      then throw "Invalid re-enable threshold configuration"
      else
        match quota with
        | Some q =>
            if gt o q
            then
              warn "Re-enable threshold higher than quota; adjusting to 90% of quota" ;;;
              ret (Some (floor (mul q lit_0_9)))
            else ret (Some o)
        | None => ret (Some o)
        end
  | None =>
      match quota with
      | None => ret None
      | Some q => ret (Some (floor (mul q lit_0_8)))
      end
  end.

(** ** Formatting *)

Definition units : list string := [ "B"; "KB"; "MB"; "GB"; "TB"; "PB" ].

(** The [while (value >= 1024 && unitIndex < units.length - 1)] loop; [fuel]
    bounds the iterations, which the guard itself limits to
    [units.length - 1]. *)
Fixpoint scaleBytes (fuel : nat) (value : number) (unitIndex : nat) : number * nat :=
  match fuel with
  | O => (value, unitIndex)
  | S fuel' =>
      if ge value (ofZ 1024) && (unitIndex <? length units - 1)%nat
      then scaleBytes fuel' (div value (ofZ 1024)) (unitIndex + 1)
      else (value, unitIndex)
  end.

Definition formatBytes (bytes : number) : string :=
  if negb (isFinite bytes) then "unknown"
  else
    let '(value, unitIndex) := scaleBytes (length units) bytes 0 in
    toFixed value (if (unitIndex =? 0)%nat then 0 else 2)
      ++ " " ++ nth unitIndex units "undefined".

Definition formatBytesOptional (value : option number) : string :=
  match value with
  | None => "unknown"
  | Some v => formatBytes v
  end.

Definition formatInteger (value : option number) : string :=
  match value with
  | None => "unknown"
  | Some v => if negb (isFinite v) then "unknown" else toLocaleString v
  end.

Definition describeMetric (n : MetricName) : string :=
  match n with
  | storage => "Storage"
  | classA => "Class A requests"
  | classB => "Class B requests"
  end.

Definition normaliseThresholds (env : Env) : Task (list MetricThreshold) :=
  storageQuota <- lift (parseOptionalSize (QUOTA_BYTES env)) ;;
  storageReenable <- lift (parseOptionalSize (REENABLE_THRESHOLD env)) ;;
  classAQuota <- lift (parseOptionalNumber (CLASS_A_QUOTA env) (Some (ofZ 1000000))) ;;
  classAReenable <- lift (parseOptionalNumber (CLASS_A_REENABLE_THRESHOLD env) None) ;;
  classBQuota <- lift (parseOptionalNumber (CLASS_B_QUOTA env) (Some (ofZ 10000000))) ;;
  classBReenable <- lift (parseOptionalNumber (CLASS_B_REENABLE_THRESHOLD env) None) ;;
  r1 <- determineReenable storageQuota storageReenable ;;
  r2 <- determineReenable classAQuota classAReenable ;;
  r3 <- determineReenable classBQuota classBReenable ;;
  ret [ {| name := storage; usage := None; quota := storageQuota; reenable := r1;
           formatter := formatBytesOptional |};
        {| name := classA; usage := None; quota := classAQuota; reenable := r2;
           formatter := formatInteger |};
        {| name := classB; usage := None; quota := classBQuota; reenable := r3;
           formatter := formatInteger |} ].

End Resolver.

(* ===================================================================== *)
(** * Remote calls *)
(* ===================================================================== *)

Definition usageEndpoint (env : Env) : string :=
  API_BASE ++ "/accounts/" ++ CF_ACCOUNT_ID env ++ "/r2/usage".

Definition accessKeyEndpoint (env : Env) : string :=
  API_BASE ++ "/accounts/" ++ CF_ACCOUNT_ID env ++ "/r2/access_keys/"
    ++ R2_ACCESS_KEY_ID env.

Definition quote : string := String (ascii_of_nat 34) EmptyString.

(** [JSON.stringify({ status })]. *)
Definition statusBody (s : AccessKeyStatus) : string :=
  "{" ++ quote ++ "status" ++ quote ++ ":" ++ quote ++ statusText_of s ++ quote ++ "}".

Definition isUpdate (r : Request) : bool := String.eqb (method r) "PATCH".

(** The set-status calls among the requests sent. *)
Definition updateCalls (w : World) : list Request :=
  List.filter isUpdate (requests w).

Definition fetchR2Usage (env : Env) : Task UsageSnapshot :=
  send {| method := "GET"; endpoint := usageEndpoint env;
          headers := authHeaders (CF_API_TOKEN env); body := None |} ;;;
  response <- ask usageResponse ;;
  if negb (ok response)
  then throw ("Failed to retrieve R2 usage: " ++ showNat (status response)
                ++ " " ++ statusText response)
  else
    let payload := payload response in
    let usage :=
      {| storageBytes := extractUsageBytes payload;
         classARequests := extractClassARequests payload;
         classBRequests := extractClassBRequests payload |} in
    match storageBytes usage, classARequests usage, classBRequests usage with
    | None, None, None =>
        throw "Could not determine any R2 usage metrics from API response"
    | _, _, _ => ret usage
    end.

Definition fetchAccessKeyStatus (env : Env) : Task AccessKeyStatus :=
  send {| method := "GET"; endpoint := accessKeyEndpoint env;
          headers := authHeaders (CF_API_TOKEN env); body := None |} ;;;
  response <- ask accessKeyResponse ;;
  if negb (ok response)
  then throw ("Failed to retrieve access key: " ++ showNat (status response)
                ++ " " ++ statusText response)
  else
    match payload response with
    | Some {| ak_result := Some {| ak_status := Some s |} |} => ret s
    | _ => ret enabled
    end.

Definition updateAccessKeyStatus (env : Env) (s : AccessKeyStatus) : Task unit :=
  send {| method := "PATCH"; endpoint := accessKeyEndpoint env;
          headers := authHeaders (CF_API_TOKEN env); body := Some (statusBody s) |} ;;;
  response <- ask (fun w => updateResponse w s) ;;
  if negb (ok response)
  then throw ("Failed to update access key status: " ++ showNat (status response)
                ++ " " ++ statusText response ++ " " ++ payload response)
  else ret tt.

(* ===================================================================== *)
(** * Hysteresis evaluator and controller *)
(* ===================================================================== *)

(** What one iteration of the [for (const metric of thresholds)] loop pushes
    to [overQuotaReasons] and to [reenableChecks]. *)
Definition overQuotaReason (metric : MetricThreshold) : list string :=
  match quota metric, usage metric with
  | Some q, Some u =>
      if ge u q
      then [ describeMetric (name metric) ++ " " ++ formatter metric (Some u)
               ++ " exceeds quota " ++ formatter metric (Some q) ]
      else []
  | _, _ => []
  end.

Definition reenableCheck (metric : MetricThreshold) : list string :=
  match reenable metric, usage metric with
  | Some r, Some u =>
      if le u r
      then [ describeMetric (name metric) ++ " " ++ formatter metric (Some u)
               ++ " <= " ++ formatter metric (Some r) ]
      else [ describeMetric (name metric) ++ " " ++ formatter metric (Some u)
               ++ " > " ++ formatter metric (Some r) ]
  | _, _ => []
  end.

Definition collectReasons (thresholds : list MetricThreshold)
  : list string * list string :=
  fold_left
    (fun acc metric =>
       ((fst acc ++ overQuotaReason metric)%list,
        (snd acc ++ reenableCheck metric)%list))
    thresholds ([], []).

(** The callback of [thresholds.every(...)]. *)
Definition allowsReenable (metric : MetricThreshold) : bool :=
  match reenable metric, usage metric with
  | Some r, Some u => le u r
  | _, _ => true
  end.

Record Decision : Type := {
  desiredStatus : AccessKeyStatus;
  overQuotaReasons : list string;
  reenableChecks : list string
}.

(** The decision of [runQuotaController], from [let desiredStatus =
    currentStatus] up to the end of the [if]/[else] that sets it. *)
Definition evaluate (currentStatus : AccessKeyStatus)
    (thresholds : list MetricThreshold) : Decision :=
  let '(over, checks) := collectReasons thresholds in
  let desired :=
    if (0 <? length over)%nat then disabled
    else if forallb allowsReenable thresholds then enabled
    else currentStatus in
  {| desiredStatus := desired; overQuotaReasons := over; reenableChecks := checks |}.

Definition buildStatusMessage (desired current : AccessKeyStatus)
    (overQuotaReasons reenableChecks : list string) : string :=
  if statusEqb desired disabled && (0 <? length overQuotaReasons)%nat
  then "Disabling access key: " ++ join "; " overQuotaReasons ++ "."
  else if statusEqb desired enabled && statusEqb current disabled
  then "Re-enabling access key: " ++ join "; " reenableChecks ++ "."
  else "Keeping access key " ++ statusText_of current ++ ". Metrics: "
         ++ orElse (join "; " (overQuotaReasons ++ reenableChecks)%list)
              "no thresholds configured"
         ++ ".".

(** The first loop of [runQuotaController]: each metric takes its usage from
    the snapshot. *)
Definition assignUsage (usage : UsageSnapshot) (metric : MetricThreshold)
  : MetricThreshold :=
  {| name := name metric;
     usage := match name metric with
              | storage => storageBytes usage
              | classA => classARequests usage
              | classB => classBRequests usage
              end;
     quota := quota metric; reenable := reenable metric;
     formatter := formatter metric |}.

Definition snapshotOf (metric : MetricThreshold) : ThresholdSnapshot :=
  {| ts_name := name metric; ts_usage := usage metric; ts_quota := quota metric;
     ts_reenable := reenable metric |}.

(** [thresholds.find((t) => t.name === n)?.field]. *)
Definition findField (n : MetricName) (field : MetricThreshold -> option number)
    (thresholds : list MetricThreshold) : option number :=
  match find (fun t => nameEqb (name t) n) thresholds with
  | Some t => field t
  | None => None
  end.

Section Controller.
Context `{Builtins}.

(** The stored status if there is one, the live status otherwise:
    [storedState?.accessKeyStatus ?? (await fetchAccessKeyStatus(env))]. *)
Definition resolveCurrentStatus (env : Env) (storedState : option StoredState)
  : Task AccessKeyStatus :=
  match storedState with
  | Some state => ret (accessKeyStatus state)
  | None => fetchAccessKeyStatus env
  end.

(** Everything [runQuotaController] does before it decides: configuration
    checks, the usage fetch and the state read, threshold resolution, and
    the current status.  The two promises of [Promise.all] are run one
    after the other: the state read changes nothing, so the order is not
    observable. *)
Definition gatherInputs (env : Env)
  : Task (UsageSnapshot * list MetricThreshold * AccessKeyStatus) :=
  when (String.eqb (CF_ACCOUNT_ID env) "")
    (throw "Missing CF_ACCOUNT_ID environment variable") ;;;
  when (String.eqb (CF_API_TOKEN env) "")
    (throw "Missing CF_API_TOKEN secret") ;;;
  when (String.eqb (R2_ACCESS_KEY_ID env) "")
    (throw "Missing R2_ACCESS_KEY_ID environment variable") ;;;
  usage <- fetchR2Usage env ;;
  storedState <- kvGet STATE_KEY ;;
  resolved <- normaliseThresholds env ;;
  let thresholds := map (assignUsage usage) resolved in
  currentStatus <- resolveCurrentStatus env storedState ;;
  ret (usage, thresholds, currentStatus).

(** From the decision to the result: the conditional set-status call, the
    message, the snapshot written to KV, the summary returned. *)
Definition applyDecision (env : Env) (usage : UsageSnapshot)
    (thresholds : list MetricThreshold) (currentStatus : AccessKeyStatus)
    (timestamp : string) (decision : Decision) : Task RunResult :=
  let desired := desiredStatus decision in
  when (negb (statusEqb desired currentStatus))
    (updateAccessKeyStatus env desired) ;;;
  let message :=
    buildStatusMessage desired currentStatus
      (overQuotaReasons decision) (reenableChecks decision) in
  let thresholdSnapshot := map snapshotOf thresholds in
  let state :=
    {| accessKeyStatus := desired;
       lastUsageBytes := storageBytes usage;
       quotaBytes := findField storage quota thresholds;
       reenableThresholdBytes := findField storage reenable thresholds;
       lastClassARequests := classARequests usage;
       classAQuota := findField classA quota thresholds;
       classAReenableThreshold := findField classA reenable thresholds;
       lastClassBRequests := classBRequests usage;
       classBQuota := findField classB quota thresholds;
       classBReenableThreshold := findField classB reenable thresholds;
       updatedAt := timestamp;
       message := message |} in
  kvPut STATE_KEY state ;;;
  ret {| success := true; rr_accessKeyStatus := desired; rr_usage := usage;
         rr_thresholds := thresholdSnapshot; rr_updatedAt := timestamp;
         rr_message := message |}.

Definition runQuotaController (env : Env) : Task RunResult :=
  inputs <- gatherInputs env ;;
  let '(usage, thresholds, currentStatus) := inputs in
  timestamp <- ask now ;;
  applyDecision env usage thresholds currentStatus timestamp
    (evaluate currentStatus thresholds).

End Controller.

(* ===================================================================== *)
(** * The single-metric version of the worker *)
(* ===================================================================== *)

(** The earlier [runQuotaController], which governs storage only, up to the
    point where its two thresholds are settled.  [parseSizeToBytes] is the
    same function in both versions. *)
Module Legacy.
Section WithBuiltins.
Context `{Builtins}.

Definition sizeOf (value : option string) : SizeValue :=
  match value with
  | Some s => SizeString s
  | None => SizeUndefined
  end.

Definition resolveThresholds (env : Env) : Task (number * number) :=
  let quotaBytes := parseSizeToBytes (sizeOf (QUOTA_BYTES env)) in
  let reenableThresholdBytes :=
    if falsy (REENABLE_THRESHOLD env)
    then floor (mul quotaBytes lit_0_8)
    else parseSizeToBytes (sizeOf (REENABLE_THRESHOLD env)) in
  when (String.eqb (CF_ACCOUNT_ID env) "")
    (throw "Missing CF_ACCOUNT_ID environment variable") ;;;
  when (String.eqb (CF_API_TOKEN env) "")
    (throw "Missing CF_API_TOKEN secret") ;;;
  when (String.eqb (R2_ACCESS_KEY_ID env) "")
    (throw "Missing R2_ACCESS_KEY_ID environment variable") ;;;
  when (negb (isFinite quotaBytes) || le quotaBytes (ofZ 0))
    (throw "Invalid quota configuration (QUOTA_BYTES)") ;;;
  when (negb (isFinite reenableThresholdBytes) || lt reenableThresholdBytes (ofZ 0))
    (throw "Invalid REENABLE_THRESHOLD configuration") ;;;
  if gt reenableThresholdBytes quotaBytes
  then
    warn "Re-enable threshold is higher than quota; adjusting to 90% of quota" ;;;
    ret (quotaBytes, floor (mul quotaBytes lit_0_9))
  else ret (quotaBytes, reenableThresholdBytes).

End WithBuiltins.
End Legacy.

(* ===================================================================== *)
(** * A reference instance of the built-ins *)
(* ===================================================================== *)

(** Used to run the worker on concrete inputs.  It is exact on the inputs
    the examples use and makes no claim elsewhere: [Number] on unsigned
    decimal literals [digits] or [digits.digits] (any other string is taken
    to [NaN]), [toFixed] and [toLocaleString] on finite values of magnitude
    below 2^53 ([toLocaleString] in the en-US locale: grouping by thousands,
    at most three fraction digits). *)
Module Reference.

Definition digitValue (c : ascii) : N := N.of_nat (nat_of_ascii c - 48).

Fixpoint digitsValue (acc : N) (s : string) : N :=
  match s with
  | EmptyString => acc
  | String c rest => digitsValue (acc * 10 + digitValue c) rest
  end.

Definition toNumber (s : string) : number :=
  if isPlainDecimal s then
    let '(whole, rest) := spanDigits s in
    let frac := match rest with String _ f => f | EmptyString => EmptyString end in
    match digitsValue 0 (whole ++ frac) with
    | N0 => S754_zero false
    | Npos m =>
        match String.length frac with
        | O => ofZ (Zpos m)
        | k => div (S754_finite false m 0)
                   (S754_finite false (Pos.pow 10 (Pos.of_nat k)) 0)
        end
    end
  else NaN.

Definition showN (n : N) : string := NilEmpty.string_of_uint (N.to_uint n).

(** The integer nearest to [|x| * 10^digits], the larger one on a tie. *)
Definition scaled (x : number) (digits : nat) : N :=
  match x with
  | S754_finite _ m e =>
      let n := (Zpos m * 10 ^ Z.of_nat digits)%Z in
      Z.to_N (if (0 <=? e)%Z then n * 2 ^ e
              else (2 * n + 2 ^ (- e)) / 2 ^ (- e + 1))%Z
  | _ => 0%N
  end.

Definition signOf (x : number) : string :=
  match x with
  | S754_finite true _ _ | S754_zero true | S754_infinity true => "-"
  | _ => ""
  end.

Fixpoint zeros (n : nat) : string :=
  match n with
  | O => EmptyString
  | S n' => String "0"%char (zeros n')
  end.

(** [n] written with at least [width] digits. *)
Definition padded (width : nat) (n : N) : string :=
  let s := showN n in zeros (width - String.length s) ++ s.

Definition fixed (x : number) (digits : nat) : string :=
  let n := scaled x digits in
  let p := (10 ^ N.of_nat digits)%N in
  match x with
  | S754_finite true _ _ => "-"
  | _ => ""
  end ++ showN (n / p)
      ++ match digits with
         | O => ""
         | _ => "." ++ padded digits (n mod p)
         end.

(** Digits in groups of three separated by commas. *)
Fixpoint grouped (fuel : nat) (n : N) : string :=
  match fuel with
  | O => showN n
  | S fuel' =>
      if (n <? 1000)%N then showN n
      else grouped fuel' (n / 1000) ++ "," ++ padded 3 (n mod 1000)
  end.

Definition fraction3 (r : N) : string :=
  if (r =? 0)%N then ""
  else if (r mod 100 =? 0)%N then "." ++ showN (r / 100)
  else if (r mod 10 =? 0)%N then "." ++ padded 2 (r / 10)
  else "." ++ padded 3 r.

Definition localeString (x : number) : string :=
  let n := scaled x 3 in
  signOf x ++ grouped 400 (n / 1000) ++ fraction3 (n mod 1000).

Definition builtins : Builtins :=
  {| Number := toNumber; toFixed := fixed; toLocaleString := localeString |}.

End Reference.

(* ===================================================================== *)
(** * Notions used to state the properties *)
(* ===================================================================== *)

(** The over-quota test of the evaluator, as a predicate on a metric. *)
Definition isOverQuota (metric : MetricThreshold) : bool :=
  match quota metric, usage metric with
  | Some q, Some u => ge u q
  | _, _ => false
  end.

(** A metric that takes no part in a decision: it has no usage, or it has
    neither a quota nor a re-enable threshold. *)
Definition inert (metric : MetricThreshold) : bool :=
  match usage metric, quota metric, reenable metric with
  | None, _, _ => true
  | Some _, None, None => true
  | _, _, _ => false
  end.

(** A quota as the parsers resolve it: finite and above zero. *)
Definition resolvedQuota (q : number) : bool :=
  isFinite q && negb (le q (ofZ 0)).

(** Two worlds that differ at most in the requests sent and the console:
    same remote answers, same clock, same KV contents. *)
Definition sameStore (w w' : World) : Prop :=
  usageResponse w' = usageResponse w /\
  accessKeyResponse w' = accessKeyResponse w /\
  updateResponse w' = updateResponse w /\
  now w' = now w /\
  STATE_KV w' = STATE_KV w.

(** The requests of the worker. *)
Definition getUsageRequest (env : Env) : Request :=
  {| method := "GET"; endpoint := usageEndpoint env;
     headers := authHeaders (CF_API_TOKEN env); body := None |}.
Definition getAccessKeyRequest (env : Env) : Request :=
  {| method := "GET"; endpoint := accessKeyEndpoint env;
     headers := authHeaders (CF_API_TOKEN env); body := None |}.
Definition setStatusRequest (env : Env) (s : AccessKeyStatus) : Request :=
  {| method := "PATCH"; endpoint := accessKeyEndpoint env;
     headers := authHeaders (CF_API_TOKEN env); body := Some (statusBody s) |}.

(** The access-key answer carries no status: the body, its [result] or the
    [status] member is missing. *)
Definition statusOmitted (p : option AccessKeyPayload) : bool :=
  match p with
  | Some {| ak_result := Some {| ak_status := Some _ |} |} => false
  | _ => true
  end.

(** ** The extractor as the specification words it *)

(** The named fields of a tree in depth-first order: an object lists each
    field and then what lies below it, field after field; an array
    contributes what lies below its elements, element after element. *)
Fixpoint fieldsDepthFirst (v : value) : list (string * value) :=
  match v with
  | Obj fields =>
      flat_map (fun kv => (fst kv, snd kv) :: fieldsDepthFirst (snd kv)) fields
  | Arr items => flat_map fieldsDepthFirst items
  | _ => []
  end.

(** The first field, in the given order, whose name is a candidate key and
    whose value is a finite number. *)
Fixpoint firstCandidate (keys : list string) (fields : list (string * value))
  : option number :=
  match fields with
  | [] => None
  | (k, v) :: rest =>
      match (if includes keys k then finiteNumber v else None) with
      | Some n => Some n
      | None => firstCandidate keys rest
      end
  end.

(** Where the traversal starts: the [result] field when the payload has
    one, the payload otherwise. *)
Definition traversalRoot (payload : value) : value :=
  match payload with
  | Obj fields =>
      match lookupField "result" fields with
      | Some result => result
      | None => payload
      end
  | _ => payload
  end.

(** The extractor in the words of the specification (section 4.1, second
    to fourth bullet): the definition [extractMetric] is compared with. *)
Definition extractSpec (payload : value) (keys : list string) : option number :=
  firstCandidate keys (fieldsDepthFirst (traversalRoot payload)).

(** [s] is the decimal rendering of an array index. *)
Definition isArrayIndex (s : string) : bool :=
  match NilEmpty.uint_of_string s with
  | Some d => String.eqb (showNat (Nat.of_uint d)) s
  | None => false
  end.

Definition isNumber (v : value) : bool :=
  match v with Num _ => true | _ => false end.

(** The payload has a [result] field holding [null]. *)
Definition hasNullResult (payload : value) : bool :=
  match payload with
  | Obj fields =>
      match lookupField "result" fields with
      | Some Null => true
      | _ => false
      end
  | _ => false
  end.

(** A metric named [n], formatted by [fmt], with quota 100, re-enable
    threshold 80 and usage [u]. *)
Definition metric_100_80 (n : MetricName) (fmt : option number -> string) (u : Z)
  : MetricThreshold :=
  {| name := n; usage := Some (ofZ u); quota := Some (ofZ 100);
     reenable := Some (ofZ 80); formatter := fmt |}.

(** The message of a decision, as [runQuotaController] builds it. *)
Definition messageOf (current : AccessKeyStatus) (d : Decision) : string :=
  buildStatusMessage (desiredStatus d) current (overQuotaReasons d) (reenableChecks d).

(** [needle] occurs in [text]. *)
Definition mentions (text needle : string) : bool :=
  match String.index 0 needle text with
  | Some _ => true
  | None => false
  end.

(** The three metrics of the worker with no quota and no threshold. *)
Definition unconfigured : list MetricThreshold :=
  map (fun n => {| name := n; usage := None; quota := None; reenable := None;
                   formatter := fun _ => "unknown" |})
      [ storage; classA; classB ].

(** ** The loops of [findFirstNumberByKeys], named *)

(** The inner [for (const item of nested)] loop. *)
Fixpoint eachItem (keys : list string) (items : list value) : option number :=
  match items with
  | [] => None
  | item :: rest =>
      match findFirstNumberByKeys item keys with
      | Some candidate => Some candidate
      | None => eachItem keys rest
      end
  end.

Definition innerLoop (keys : list string) (nested : value) : option number :=
  match nested with
  | Arr items => eachItem keys items
  | _ => None
  end.

(** The loop over the entries of an object. *)
Fixpoint loopFields (keys : list string) (es : list (string * value))
  : option number :=
  match es with
  | [] => None
  | (key, nested) :: rest =>
      visitEntry keys key nested (findFirstNumberByKeys nested keys)
        (innerLoop keys nested) (loopFields keys rest)
  end.

(** The loop over the entries of an array, from index [i] on. *)
Fixpoint loopItems (keys : list string) (i : nat) (es : list value)
  : option number :=
  match es with
  | [] => None
  | nested :: rest =>
      visitEntry keys (showNat i) nested (findFirstNumberByKeys nested keys)
        (innerLoop keys nested) (loopItems keys (S i) rest)
  end.

(** A task that leaves the store alone and sends no set-status call. *)
Definition gentle {A} (t : Task A) : Prop :=
  forall w, sameStore w (snd (t w)) /\ updateCalls (snd (t w)) = updateCalls w.

(** ** Example inputs *)

Definition exampleEnv (quotaBytes reenableThreshold : option string) : Env :=
  {| CF_ACCOUNT_ID := "account"; CF_API_TOKEN := "token";
     R2_ACCESS_KEY_ID := "key";
     QUOTA_BYTES := quotaBytes; REENABLE_THRESHOLD := reenableThreshold;
     CLASS_A_QUOTA := None; CLASS_A_REENABLE_THRESHOLD := None;
     CLASS_B_QUOTA := None; CLASS_B_REENABLE_THRESHOLD := None |}.

(** A usage answer in the provider's envelope. *)
Definition usagePayload (bytes classAOps classBOps : Z) : value :=
  Obj [ ("success", Bool true);
        ("errors", Arr []);
        ("result", Obj [ ("storageBytes", Num (ofZ bytes));
                         ("classARequests", Num (ofZ classAOps));
                         ("classBRequests", Num (ofZ classBOps)) ]) ].

Definition okResponse {A} (p : A) : Response A :=
  {| ok := true; status := 200; statusText := "OK"; payload := p |}.

Definition failedResponse {A} (p : A) : Response A :=
  {| ok := false; status := 500; statusText := "Internal Server Error";
     payload := p |}.

(** A world whose provider reports the given usage, whose access key
    answers [live], and whose set-status call succeeds or not. *)
Definition exampleWorld (usage : value) (live : option AccessKeyPayload)
    (updateOk : bool) (kv : gmap string StoredState) : World :=
  {| usageResponse := okResponse usage;
     accessKeyResponse := okResponse live;
     updateResponse := fun _ => if updateOk then okResponse "" else failedResponse "denied";
     now := "2025-01-01T00:00:00.000Z";
     STATE_KV := kv; requests := []; console := [] |}.

(** A snapshot as a previous run leaves it, with the given status. *)
Definition storedWith (s : AccessKeyStatus) : StoredState :=
  {| accessKeyStatus := s; lastUsageBytes := None; quotaBytes := None;
     reenableThresholdBytes := None; lastClassARequests := None;
     classAQuota := None; classAReenableThreshold := None;
     lastClassBRequests := None; classBQuota := None;
     classBReenableThreshold := None;
     updatedAt := "2024-12-31T23:45:00.000Z"; message := "" |}.

(** The scenario of a storage quota of "1GB" reached exactly: the usage
    the provider reports and the thresholds the worker resolves, under the
    reference built-ins. *)
Definition exampleUsage : UsageSnapshot :=
  {| storageBytes := Some (ofZ 1073741824);
     classARequests := Some (ofZ 10);
     classBRequests := Some (ofZ 10) |}.

Definition exampleThresholds : list MetricThreshold :=
  [ {| name := storage; usage := Some (ofZ 1073741824);
       quota := Some (ofZ 1073741824);
       reenable := Some (floor (mul (ofZ 1073741824) lit_0_8));
       formatter := @formatBytesOptional Reference.builtins |};
    {| name := classA; usage := Some (ofZ 10);
       quota := Some (ofZ 1000000); reenable := Some (ofZ 800000);
       formatter := @formatInteger Reference.builtins |};
    {| name := classB; usage := Some (ofZ 10);
       quota := Some (ofZ 10000000); reenable := Some (ofZ 8000000);
       formatter := @formatInteger Reference.builtins |} ].

Definition exampleRun (updateOk : bool) (stored : AccessKeyStatus)
  : outcome RunResult * World :=
  @runQuotaController Reference.builtins (exampleEnv (Some "1GB") None)
    (exampleWorld (usagePayload 1073741824 10 10) None updateOk
       {[ STATE_KEY := storedWith stored ]}).

(* ===================================================================== *)
(** * The rest of the worker *)
(* ===================================================================== *)

(** ** The HTTP entry point *)

(** [JSON.stringify(value, null, 2)] on the two objects the handler
    serialises. *)
Class Serializer : Type := {
  stringifySummary : RunResult -> string;
  stringifyFailure : string -> string
}.

(** What the handler passes to [new Response(body, init)]; a missing
    [status] is 200. *)
Record HttpResponse : Type := {
  res_status : nat;
  res_headers : list (string * string);
  res_body : string
}.

Section Handler.
Context `{Builtins} `{Serializer}.

(** The [fetch] handler of the default export, on the method of the
    request; a rejected [runQuotaController] is caught. *)
Definition handleFetch (requestMethod : string) (env : Env) : Task HttpResponse :=
  if negb (String.eqb requestMethod "GET")
  then ret {| res_status := 405; res_headers := []; res_body := "Method Not Allowed" |}
  else
    fun w =>
      match runQuotaController env w with
      | (Returned summary, w') =>
          (Returned {| res_status := 200;
                       res_headers := [ ("content-type", "application/json") ];
                       res_body := stringifySummary summary |}, w')
      | (Thrown message, w') =>
          (Returned {| res_status := 500;
                       res_headers := [ ("content-type", "application/json") ];
                       res_body := stringifyFailure message |}, w')
      end.

End Handler.

(** ** The single-metric version: usage fetch and decision *)

Module SingleMetric.

(** [extractUsageBytes(payload)] of the single-metric version: a number
    payload is returned as it is, and [NaN] stands for not found. *)
Definition extractUsageBytes (payload : value) : number :=
  match payload with
  | Num n => n
  | Obj fields =>
      let maybeResult :=
        match lookupField "result" fields with
        | None | Some Null => payload
        | Some result => result
        end in
      match findFirstNumberByKeys maybeResult CANDIDATE_USAGE_KEYS with
      | Some found => found
      | None => NaN
      end
  | Arr _ =>
      match findFirstNumberByKeys payload CANDIDATE_USAGE_KEYS with
      | Some found => found
      | None => NaN
      end
  | Null | Bool _ | Str _ => NaN
  end.

Definition fetchR2Usage (env : Env) : Task number :=
  send {| method := "GET"; endpoint := usageEndpoint env;
          headers := authHeaders (CF_API_TOKEN env); body := None |} ;;;
  response <- ask usageResponse ;;
  if negb (ok response)
  then throw ("Failed to retrieve R2 usage: " ++ showNat (status response)
                ++ " " ++ statusText response)
  else
    let usageBytes := extractUsageBytes (payload response) in
    if negb (isFinite usageBytes)
    then throw "Could not determine R2 usage from API response"
    else ret usageBytes.

Section WithBuiltins.
Context `{Builtins}.

(** The decision of the single-metric [runQuotaController] and its
    message. *)
Definition decide (currentStatus : AccessKeyStatus)
    (usageBytes quotaBytes reenableThresholdBytes : number)
  : AccessKeyStatus * string :=
  if ge usageBytes quotaBytes
  then (disabled,
        "Usage " ++ formatBytes usageBytes ++ " is above the quota "
          ++ formatBytes quotaBytes ++ "; disabling access key.")
  else if le usageBytes reenableThresholdBytes
  then (enabled,
        "Usage " ++ formatBytes usageBytes ++ " is below the re-enable threshold "
          ++ formatBytes reenableThresholdBytes ++ "; enabling access key.")
  else (currentStatus,
        "Usage " ++ formatBytes usageBytes ++ " is between thresholds ("
          ++ formatBytes reenableThresholdBytes ++ " - " ++ formatBytes quotaBytes
          ++ "); keeping status " ++ statusText_of currentStatus ++ ".").

End WithBuiltins.
End SingleMetric.

(** ** Further notions used to state properties *)

(** Two worlds with the same remote answers and clock; the KV namespace,
    the requests sent and the console may differ. *)
Definition sameRemote (w w' : World) : Prop :=
  usageResponse w' = usageResponse w /\
  accessKeyResponse w' = accessKeyResponse w /\
  updateResponse w' = updateResponse w /\
  now w' = now w.

(** A task whose outcome is settled by the remote answers alone, and which
    leaves them as they are. *)
Definition remoteOnly {A} (t : Task A) : Prop :=
  forall w w', sameRemote w w' ->
    fst (t w') = fst (t w) /\ sameRemote (snd (t w)) (snd (t w')).

(** A task that sends no request. *)
Definition sendsNothing {A} (t : Task A) : Prop :=
  forall w, requests (snd (t w)) = requests w.


(** The first character of [s] is a decimal digit. *)
Definition startsWithDigit (s : string) : bool :=
  match s with
  | EmptyString => false
  | String c _ => isDigit c
  end.

Definition present {A} (o : option A) : bool :=
  match o with Some _ => true | None => false end.

(** An optional number that is finite when present. *)
Definition finiteIfPresent (o : option number) : bool :=
  match o with Some n => isFinite n | None => true end.

(** The number of metrics over their quota. *)
Definition overQuotaCount (ms : list MetricThreshold) : nat :=
  length (List.filter isOverQuota ms).

(** The three identifiers a run checks first are all set. *)
Definition configured (env : Env) : bool :=
  negb (String.eqb (CF_ACCOUNT_ID env) "")
  && negb (String.eqb (CF_API_TOKEN env) "")
  && negb (String.eqb (R2_ACCESS_KEY_ID env) "").


(** An ASCII character other than white space: no white space character
    starts with it, contains it or ends with it. *)
Definition plainByte (c : ascii) : bool :=
  (nat_of_ascii c <? 128)%nat && negb (isSpace c).

Fixpoint allPlain (s : string) : bool :=
  match s with
  | EmptyString => true
  | String c rest => plainByte c && allPlain rest
  end.

(** [s] is a run of white space characters, each of one, two or three
    bytes. *)
Fixpoint whiteSpace (s : string) : bool :=
  match s with
  | EmptyString => true
  | String c rest =>
      (isSpace c && whiteSpace rest)
      || match rest with
         | EmptyString => false
         | String d rest2 =>
             (isSpace2 c d && whiteSpace rest2)
             || match rest2 with
                | EmptyString => false
                | String e rest3 => isSpace3 c d e && whiteSpace rest3
                end
         end
  end.

(** U+00A0, U+2003, U+2028 and U+FEFF as encoded. *)
Definition nbsp : string :=
  String (ascii_of_nat 194) (String (ascii_of_nat 160) "").
Definition emSpace : string :=
  String (ascii_of_nat 226) (String (ascii_of_nat 128) (String (ascii_of_nat 131) "")).
Definition lineSeparator : string :=
  String (ascii_of_nat 226) (String (ascii_of_nat 128) (String (ascii_of_nat 168) "")).
Definition byteOrderMark : string :=
  String (ascii_of_nat 239) (String (ascii_of_nat 187) (String (ascii_of_nat 191) "")).


(** A metric as threshold resolution leaves it: no usage yet, and a quota,
    when there is one, that is finite, above zero and comes with a
    re-enable threshold. *)
Definition wellResolved (m : MetricThreshold) : bool :=
  negb (present (usage m))
  && match quota m with
     | Some q => resolvedQuota q && present (reenable m)
     | None => true
     end.

(* ===================================================================== *)
(** * The hysteresis evaluator *)
(* ===================================================================== *)

Lemma collectReasons_from (ms : list MetricThreshold) (over checks : list string) :
  fold_left
    (fun acc metric =>
       ((fst acc ++ overQuotaReason metric)%list,
        (snd acc ++ reenableCheck metric)%list))
    ms (over, checks)
  = ((over ++ flat_map overQuotaReason ms)%list,
     (checks ++ flat_map reenableCheck ms)%list).
Proof.
  revert over checks.
  induction ms as [|m ms IH]; intros over checks; simpl.
  - by rewrite !app_nil_r.
  - rewrite IH. by rewrite <- !app_assoc.
Qed.

Lemma collectReasons_flat_map (ms : list MetricThreshold) :
  collectReasons ms = (flat_map overQuotaReason ms, flat_map reenableCheck ms).
Proof. unfold collectReasons. by rewrite collectReasons_from. Qed.

Lemma overQuotaReason_length (m : MetricThreshold) :
  length (overQuotaReason m) = if isOverQuota m then 1 else 0.
Proof.
  unfold overQuotaReason, isOverQuota.
  destruct (quota m), (usage m); try reflexivity.
  by destruct (ge _ _).
Qed.

Lemma anyOverQuota (ms : list MetricThreshold) :
  (0 <? length (flat_map overQuotaReason ms))%nat = existsb isOverQuota ms.
Proof.
  induction ms as [|m ms IH]; [reflexivity|].
  simpl. rewrite length_app, overQuotaReason_length.
  destruct (isOverQuota m); simpl; [reflexivity | exact IH].
Qed.

(** The next state in closed form: disabled as soon as one metric is over
    its quota; otherwise enabled when every metric allows it; otherwise
    unchanged. *)
Lemma desiredStatus_evaluate (current : AccessKeyStatus) (ms : list MetricThreshold) :
  desiredStatus (evaluate current ms)
  = if existsb isOverQuota ms then disabled
    else if forallb allowsReenable ms then enabled
    else current.
Proof.
  unfold evaluate. rewrite collectReasons_flat_map. simpl.
  by rewrite anyOverQuota.
Qed.

Lemma reasons_evaluate (current : AccessKeyStatus) (ms : list MetricThreshold) :
  overQuotaReasons (evaluate current ms) = flat_map overQuotaReason ms /\
  reenableChecks (evaluate current ms) = flat_map reenableCheck ms.
Proof. unfold evaluate. by rewrite collectReasons_flat_map. Qed.

Lemma inert_silent (m : MetricThreshold) :
  inert m = true ->
  isOverQuota m = false /\ allowsReenable m = true /\
  overQuotaReason m = [] /\ reenableCheck m = [].
Proof.
  unfold inert, isOverQuota, allowsReenable, overQuotaReason, reenableCheck.
  destruct (usage m), (quota m), (reenable m); intros Hm;
    try discriminate; repeat split; reflexivity.
Qed.

Lemma inert_list_silent (ms : list MetricThreshold) :
  forallb inert ms = true ->
  existsb isOverQuota ms = false /\ forallb allowsReenable ms = true /\
  flat_map overQuotaReason ms = [] /\ flat_map reenableCheck ms = [].
Proof.
  induction ms as [|m ms IH]; simpl; [done|].
  intros [Hm Hms]%andb_true_iff.
  destruct (inert_silent m Hm) as (-> & -> & -> & ->).
  destruct (IH Hms) as (-> & -> & -> & ->). done.
Qed.

(** Inert metrics around a metric leave the decision to that metric. *)
Lemma desiredStatus_single (current : AccessKeyStatus)
    (before after : list MetricThreshold) (m : MetricThreshold) :
  forallb inert before = true -> forallb inert after = true ->
  desiredStatus (evaluate current (before ++ m :: after))
  = if isOverQuota m then disabled
    else if allowsReenable m then enabled else current.
Proof.
  intros Hb Ha. rewrite desiredStatus_evaluate.
  rewrite existsb_app, forallb_app. simpl.
  destruct (inert_list_silent _ Hb) as (-> & -> & _).
  destruct (inert_list_silent _ Ha) as (-> & -> & _).
  simpl. rewrite orb_false_r, andb_true_r. reflexivity.
Qed.

(** C1. Hysteresis band: with one governed metric (quota 100, re-enable
    threshold 80) among metrics that take no part, usage 90 from enabled
    stays enabled; usage 100 gives disabled from any state; usage 75 gives
    enabled from any state; usage 85 from disabled stays disabled. *)
Theorem hysteresis_band (n : MetricName) (fmt : option number -> string)
    (before after : list MetricThreshold) :
  forallb inert before = true -> forallb inert after = true ->
  let next current u :=
    desiredStatus (evaluate current (before ++ metric_100_80 n fmt u :: after)) in
  next enabled 90%Z = enabled /\
  (forall current, next current 100%Z = disabled) /\
  (forall current, next current 75%Z = enabled) /\
  next disabled 85%Z = disabled.
Proof.
  intros Hb Ha next. subst next. cbv beta.
  repeat split; intros; rewrite (desiredStatus_single _ _ _ _ Hb Ha); reflexivity.
Qed.

Lemma hysteresis_band_witness :
  let others :=
    [ {| name := classA; usage := None; quota := Some (ofZ 1000000);
         reenable := Some (ofZ 800000); formatter := fun _ => "" |} ] in
  forallb inert [] = true /\ forallb inert others = true /\
  desiredStatus
    (evaluate enabled ([] ++ metric_100_80 storage (fun _ => "") 90 :: others))
  = enabled.
Proof.
  split; [reflexivity | split; [reflexivity |]].
  apply (hysteresis_band storage (fun _ => "") [] _); reflexivity.
Defined.

(** C3, as stated, fails from the disabled state: with no metric configured
    the evaluator re-enables the key, and the message is the re-enabling
    one, without the words "no thresholds configured".  The same happens in
    a run with no storage quota set and a provider that reports storage
    only, where no metric has both a usage and a threshold. *)
Lemma unconfigured_keeps_state_counterexample :
  (forallb inert unconfigured = true /\
   desiredStatus (evaluate disabled unconfigured) <> disabled /\
   mentions (messageOf disabled (evaluate disabled unconfigured))
     "no thresholds configured" = false) /\
  (let w := exampleWorld (Obj [ ("result", Obj [ ("storageBytes", Num (ofZ 5)) ]) ])
              None true {[ STATE_KEY := storedWith disabled ]} in
   exists result,
     fst (@runQuotaController Reference.builtins (exampleEnv None None) w)
     = Returned result /\
     rr_accessKeyStatus result = enabled /\
     rr_message result = "Re-enabling access key: .").
Proof.
  split.
  - repeat split; discriminate.
  - eexists. split; [vm_compute; reflexivity |]. by vm_compute.
Qed.

(** C3, amended. When no metric takes part in the decision, the next state
    is enabled whatever the current state and both reason lists are empty;
    from enabled the message is the keeping one and notes "no thresholds
    configured", from disabled it is the re-enabling one. *)
Theorem unconfigured_enables (current : AccessKeyStatus) (ms : list MetricThreshold) :
  forallb inert ms = true ->
  desiredStatus (evaluate current ms) = enabled /\
  overQuotaReasons (evaluate current ms) = [] /\
  reenableChecks (evaluate current ms) = [] /\
  messageOf current (evaluate current ms)
  = match current with
    | enabled => "Keeping access key enabled. Metrics: no thresholds configured."
    | disabled => "Re-enabling access key: ."
    end.
Proof.
  intros Hms.
  destruct (inert_list_silent ms Hms) as (Hover & Hallow & Ho & Hc).
  destruct (reasons_evaluate current ms) as [Eo Ec].
  assert (Hd : desiredStatus (evaluate current ms) = enabled)
    by (by rewrite desiredStatus_evaluate, Hover, Hallow).
  unfold messageOf. rewrite Hd, Eo, Ec, Ho, Hc.
  repeat split; by destruct current.
Qed.

Lemma unconfigured_enables_witness :
  forallb inert unconfigured = true /\
  desiredStatus (evaluate disabled unconfigured) = enabled /\
  messageOf enabled (evaluate enabled unconfigured)
  = "Keeping access key enabled. Metrics: no thresholds configured.".
Proof.
  split; [reflexivity |].
  split.
  - exact (proj1 (unconfigured_enables disabled unconfigured eq_refl)).
  - exact (proj2 (proj2 (proj2 (unconfigured_enables enabled unconfigured eq_refl)))).
Defined.

(* ===================================================================== *)
(** * Effects of the worker's tasks *)
(* ===================================================================== *)

Lemma sameStore_refl (w : World) : sameStore w w.
Proof. by repeat split. Qed.

Lemma sameStore_trans (w1 w2 w3 : World) :
  sameStore w1 w2 -> sameStore w2 w3 -> sameStore w1 w3.
Proof.
  intros (a1 & a2 & a3 & a4 & a5) (b1 & b2 & b3 & b4 & b5).
  repeat split; congruence.
Qed.

Lemma bind_Returned {A B} (t : Task A) (k : A -> Task B) (w w' : World) (b : B) :
  bind t k w = (Returned b, w') ->
  exists a w1, t w = (Returned a, w1) /\ k a w1 = (Returned b, w').
Proof.
  unfold bind. destruct (t w) as [[a|e] w1]; [eauto | discriminate].
Qed.

Lemma bind_fst_Returned {A B} (t : Task A) (k : A -> Task B) (w : World) (b : B) :
  fst (bind t k w) = Returned b ->
  exists a w1, t w = (Returned a, w1) /\ fst (k a w1) = Returned b.
Proof.
  unfold bind. destruct (t w) as [[a|e] w1]; [eauto | discriminate].
Qed.

Lemma gentle_ret {A} (a : A) : gentle (ret a).
Proof. intros w. split; [apply sameStore_refl | reflexivity]. Qed.

Lemma gentle_throw {A} (e : string) : gentle (@throw A e).
Proof. intros w. split; [apply sameStore_refl | reflexivity]. Qed.

Lemma gentle_lift {A} (o : outcome A) : gentle (lift o).
Proof. intros w. split; [apply sameStore_refl | reflexivity]. Qed.

Lemma gentle_ask {A} (f : World -> A) : gentle (ask f).
Proof. intros w. split; [apply sameStore_refl | reflexivity]. Qed.

Lemma gentle_kvGet (key : string) : gentle (kvGet key).
Proof. intros w. split; [apply sameStore_refl | reflexivity]. Qed.

Lemma gentle_warn (line : string) : gentle (warn line).
Proof. intros w. split; [by repeat split | reflexivity]. Qed.

Lemma updateCalls_withRequest (r : Request) (w : World) :
  updateCalls (withRequest r w)
  = (updateCalls w ++ if isUpdate r then [r] else [])%list.
Proof.
  unfold updateCalls, withRequest. simpl.
  rewrite List.filter_app. simpl. by destruct (isUpdate r).
Qed.

Lemma gentle_send (r : Request) : isUpdate r = false -> gentle (send r).
Proof.
  intros Hr w. split; [by repeat split |].
  unfold send. simpl. rewrite updateCalls_withRequest, Hr. apply app_nil_r.
Qed.

Lemma gentle_bind {A B} (t : Task A) (k : A -> Task B) :
  gentle t -> (forall a, gentle (k a)) -> gentle (bind t k).
Proof.
  intros Ht Hk w. unfold bind.
  destruct (Ht w) as [Hs Hu].
  destruct (t w) as [[a|e] w1]; simpl in *; [| by split].
  destruct (Hk a w1) as [Hs' Hu']. split.
  - eapply sameStore_trans; eassumption.
  - congruence.
Qed.

Lemma gentle_run {A} (t : Task A) (w w' : World) (o : outcome A) :
  gentle t -> t w = (o, w') -> sameStore w w'.
Proof. intros Ht E. destruct (Ht w) as [S _]. by rewrite E in S. Qed.

Lemma gentle_when (c : bool) (t : Task unit) : gentle t -> gentle (when c t).
Proof. intros Ht. destruct c; [exact Ht | apply gentle_ret]. Qed.

(** Decompose a task into its primitives. *)
Ltac gentle_step :=
  first
    [ apply gentle_ret | apply gentle_throw | apply gentle_lift
    | apply gentle_ask | apply gentle_kvGet | apply gentle_warn
    | apply gentle_send; reflexivity
    | apply gentle_when
    | apply gentle_bind; [| intros ?]
    | match goal with
      | |- gentle (if ?c then _ else _) => destruct c
      | |- gentle (match ?x with _ => _ end) => destruct x
      end ].

Ltac gentle_tac := repeat gentle_step.

Lemma gentle_fetchR2Usage (env : Env) : gentle (fetchR2Usage env).
Proof. unfold fetchR2Usage. gentle_tac. Qed.

Lemma gentle_fetchAccessKeyStatus (env : Env) : gentle (fetchAccessKeyStatus env).
Proof. unfold fetchAccessKeyStatus. gentle_tac. Qed.

Section Effects.
Context `{Builtins}.

Lemma gentle_determineReenable (q o : option number) : gentle (determineReenable q o).
Proof. unfold determineReenable. gentle_tac. Qed.

Lemma gentle_normaliseThresholds (env : Env) : gentle (normaliseThresholds env).
Proof.
  unfold normaliseThresholds.
  repeat first [ apply gentle_determineReenable | gentle_step ].
Qed.

Lemma gentle_resolveCurrentStatus (env : Env) (stored : option StoredState) :
  gentle (resolveCurrentStatus env stored).
Proof.
  destruct stored; [apply gentle_ret | apply gentle_fetchAccessKeyStatus].
Qed.

Lemma gentle_gatherInputs (env : Env) : gentle (gatherInputs env).
Proof.
  unfold gatherInputs.
  repeat first
    [ apply gentle_fetchR2Usage | apply gentle_normaliseThresholds
    | apply gentle_resolveCurrentStatus | gentle_step ].
Qed.

End Effects.

(* ===================================================================== *)
(** * The controller *)
(* ===================================================================== *)

Lemma statusEqb_eq (a b : AccessKeyStatus) : statusEqb a b = true <-> a = b.
Proof. destruct a, b; simpl; split; congruence. Qed.

Lemma statusEqb_neq (a b : AccessKeyStatus) : statusEqb a b = false <-> a <> b.
Proof. destruct a, b; simpl; split; congruence. Qed.

Section ControllerProperties.
Context `{Builtins}.

(** What [updateAccessKeyStatus] does: one PATCH request, then an error
    exactly when the answer is not ok. *)
Lemma updateAccessKeyStatus_run (env : Env) (s : AccessKeyStatus) (w : World) :
  updateAccessKeyStatus env s w
  = (if ok (updateResponse w s) then Returned tt
     else Thrown ("Failed to update access key status: "
                    ++ showNat (status (updateResponse w s)) ++ " "
                    ++ statusText (updateResponse w s) ++ " "
                    ++ payload (updateResponse w s)),
     withRequest (setStatusRequest env s) w).
Proof.
  unfold updateAccessKeyStatus, bind, send, ask. simpl.
  by destruct (ok (updateResponse w s)).
Qed.

Lemma applyDecision_updateCalls (env : Env) (usage : UsageSnapshot)
    (ths : list MetricThreshold) (cur : AccessKeyStatus) (ts : string)
    (d : Decision) (w : World) :
  updateCalls (snd (applyDecision env usage ths cur ts d w))
  = (updateCalls w
       ++ if statusEqb (desiredStatus d) cur then []
          else [setStatusRequest env (desiredStatus d)])%list.
Proof.
  unfold applyDecision, bind, when.
  destruct (statusEqb (desiredStatus d) cur); cbn [negb].
  - simpl. by rewrite app_nil_r.
  - rewrite updateAccessKeyStatus_run.
    destruct (ok (updateResponse w (desiredStatus d))); cbn [snd fst kvPut ret];
      [change (updateCalls (withKV ?kv ?w0)) with (updateCalls w0) |];
      by rewrite updateCalls_withRequest.
Qed.

(** C4. The set-status call is made if and only if the decided state
    differs from the current one: a run adds to the set-status calls
    exactly one call, carrying the decided state, when the two differ, and
    none when they are equal (or when the run stops before deciding). *)
Theorem set_status_iff_changed (env : Env) (w : World) :
  updateCalls (snd (runQuotaController env w))
  = (updateCalls w
       ++ match fst (gatherInputs env w) with
          | Returned (_, thresholds, currentStatus) =>
              let desired := desiredStatus (evaluate currentStatus thresholds) in
              if statusEqb desired currentStatus then []
              else [setStatusRequest env desired]
          | Thrown _ => []
          end)%list.
Proof.
  destruct (gentle_gatherInputs env w) as [_ Hcalls].
  unfold runQuotaController, bind.
  destruct (gatherInputs env w) as [[[[usage ths] cur]|e] w1]; simpl in *.
  - rewrite applyDecision_updateCalls. by rewrite Hcalls.
  - by rewrite Hcalls, app_nil_r.
Qed.

(** A run that returns reports the state the evaluator decides, with the
    message built from its reasons, and stores that state. *)
Lemma run_reports_decision (env : Env) (w : World) (usage : UsageSnapshot)
    (ths : list MetricThreshold) (cur : AccessKeyStatus) (result : RunResult) :
  fst (gatherInputs env w) = Returned (usage, ths, cur) ->
  fst (runQuotaController env w) = Returned result ->
  rr_accessKeyStatus result = desiredStatus (evaluate cur ths) /\
  rr_message result = messageOf cur (evaluate cur ths) /\
  accessKeyStatus <$> (STATE_KV (snd (runQuotaController env w)) !! STATE_KEY)
  = Some (desiredStatus (evaluate cur ths)).
Proof.
  intros Hin. unfold runQuotaController, bind.
  destruct (gatherInputs env w) as [[[[usage' ths'] cur']|e] w1];
    simpl in Hin; [| discriminate].
  injection Hin as -> -> ->. simpl.
  unfold applyDecision, bind, when.
  destruct (statusEqb (desiredStatus (evaluate cur ths)) cur); cbn [negb].
  - simpl. intros [= <-]. simpl. by rewrite lookup_insert_eq.
  - rewrite updateAccessKeyStatus_run.
    destruct (ok (updateResponse w1 _)); [| discriminate].
    simpl. intros [= <-]. simpl. by rewrite lookup_insert_eq.
Qed.

(** C5. When the set-status call fails, the run fails with its error and
    the KV namespace is left as it was, so that the next run reads the same
    prior state. *)
Theorem failed_toggle_not_persisted (env : Env) (w : World)
    (usage : UsageSnapshot) (ths : list MetricThreshold) (cur : AccessKeyStatus) :
  fst (gatherInputs env w) = Returned (usage, ths, cur) ->
  desiredStatus (evaluate cur ths) <> cur ->
  ok (updateResponse w (desiredStatus (evaluate cur ths))) = false ->
  let desired := desiredStatus (evaluate cur ths) in
  let after := runQuotaController env w in
  fst after
  = Thrown ("Failed to update access key status: "
              ++ showNat (status (updateResponse w desired)) ++ " "
              ++ statusText (updateResponse w desired) ++ " "
              ++ payload (updateResponse w desired)) /\
  STATE_KV (snd after) = STATE_KV w /\
  fst (kvGet STATE_KEY (snd after)) = fst (kvGet STATE_KEY w).
Proof.
  intros Hin Hneq Hfail desired after. subst desired after.
  destruct (gentle_gatherInputs env w) as [(_ & _ & Hupd & _ & Hkv) _].
  unfold runQuotaController, bind.
  destruct (gatherInputs env w) as [[[[usage' ths'] cur']|e] w1];
    simpl in Hin; [| discriminate].
  injection Hin as -> -> ->. simpl in Hupd, Hkv. simpl.
  apply statusEqb_neq in Hneq.
  unfold applyDecision, bind, when. rewrite Hneq. simpl.
  rewrite updateAccessKeyStatus_run, Hupd, Hfail. simpl.
  unfold kvGet. simpl. rewrite Hkv. done.
Qed.

(** The access-key lookup: one GET, then an error on an answer that is not
    ok, the status the answer carries, or enabled when it carries none. *)
Lemma fetchAccessKeyStatus_run (env : Env) (w : World) :
  fetchAccessKeyStatus env w
  = (if ok (accessKeyResponse w)
     then
       Returned
         match payload (accessKeyResponse w) with
         | Some {| ak_result := Some {| ak_status := Some s |} |} => s
         | _ => enabled
         end
     else
       Thrown ("Failed to retrieve access key: "
                 ++ showNat (status (accessKeyResponse w)) ++ " "
                 ++ statusText (accessKeyResponse w)),
     withRequest (getAccessKeyRequest env) w).
Proof.
  unfold fetchAccessKeyStatus, bind, send, ask. simpl.
  destruct (ok (accessKeyResponse w)); simpl; [| reflexivity].
  by destruct (payload (accessKeyResponse w)) as [[[[[s|]]|]]|].
Qed.

(** C10. With no snapshot in the KV namespace the current status is asked
    of the access controller: the step sends the access-key lookup and its
    outcome is read off the answer.  An answer that is not ok is an error;
    an ok answer that carries a status gives that status; an ok answer
    that carries none gives enabled.  The status a run decides from is the
    one so resolved, so a run that reaches its decision had an ok answer,
    and decides from the answered status, or from enabled when the status
    is omitted. *)
Theorem live_status_defaults_enabled (env : Env) (w : World) :
  STATE_KV w !! STATE_KEY = None ->
  fst (kvGet STATE_KEY w) = Returned None /\
  snd (resolveCurrentStatus env (STATE_KV w !! STATE_KEY) w)
  = withRequest (getAccessKeyRequest env) w /\
  (ok (accessKeyResponse w) = false ->
   fst (resolveCurrentStatus env (STATE_KV w !! STATE_KEY) w)
   = Thrown ("Failed to retrieve access key: "
               ++ showNat (status (accessKeyResponse w)) ++ " "
               ++ statusText (accessKeyResponse w))) /\
  (forall s,
     ok (accessKeyResponse w) = true ->
     payload (accessKeyResponse w)
     = Some {| ak_result := Some {| ak_status := Some s |} |} ->
     resolveCurrentStatus env (STATE_KV w !! STATE_KEY) w
     = (Returned s, withRequest (getAccessKeyRequest env) w)) /\
  (ok (accessKeyResponse w) = true ->
   statusOmitted (payload (accessKeyResponse w)) = true ->
   resolveCurrentStatus env (STATE_KV w !! STATE_KEY) w
   = (Returned enabled, withRequest (getAccessKeyRequest env) w)) /\
  forall usage ths cur,
    fst (gatherInputs env w) = Returned (usage, ths, cur) ->
    ok (accessKeyResponse w) = true /\
    (forall s,
       payload (accessKeyResponse w)
       = Some {| ak_result := Some {| ak_status := Some s |} |} ->
       cur = s) /\
    (statusOmitted (payload (accessKeyResponse w)) = true -> cur = enabled).
Proof.
  intros Hkv. rewrite Hkv. cbn [resolveCurrentStatus].
  rewrite fetchAccessKeyStatus_run. cbn [fst snd].
  split; [unfold kvGet; simpl; by rewrite Hkv |].
  split; [reflexivity |].
  split; [by intros -> |].
  split; [by intros s -> -> |].
  split.
  { intros -> Hom.
    by destruct (payload (accessKeyResponse w)) as [[[[[s|]]|]]|]. }
  intros usage ths cur Hin. unfold gatherInputs in Hin.
  apply bind_fst_Returned in Hin as (? & w1 & E1 & Hin).
  apply bind_fst_Returned in Hin as (? & w2 & E2 & Hin).
  apply bind_fst_Returned in Hin as (? & w3 & E3 & Hin).
  apply bind_fst_Returned in Hin as (usage' & w4 & E4 & Hin).
  apply bind_fst_Returned in Hin as (stored & w5 & E5 & Hin).
  apply bind_fst_Returned in Hin as (resolved & w6 & E6 & Hin).
  apply bind_fst_Returned in Hin as (cur' & w7 & E7 & Hin).
  simpl in Hin. injection Hin as _ _ <-.
  assert (S1 : sameStore w w1) by (eapply gentle_run; [| exact E1]; gentle_tac).
  assert (S2 : sameStore w1 w2) by (eapply gentle_run; [| exact E2]; gentle_tac).
  assert (S3 : sameStore w2 w3) by (eapply gentle_run; [| exact E3]; gentle_tac).
  assert (S4 : sameStore w3 w4)
    by (eapply gentle_run; [apply gentle_fetchR2Usage | exact E4]).
  assert (S5 : sameStore w4 w5)
    by (eapply gentle_run; [apply gentle_kvGet | exact E5]).
  assert (stored = STATE_KV w4 !! STATE_KEY) as ->
    by (unfold kvGet in E5; congruence).
  assert (S6 : sameStore w5 w6)
    by (eapply gentle_run; [apply gentle_normaliseThresholds | exact E6]).
  assert (S04 : sameStore w w4) by eauto using sameStore_trans.
  assert (S06 : sameStore w w6) by eauto using sameStore_trans.
  destruct S04 as (_ & _ & _ & _ & K4).
  destruct S06 as (_ & A6 & _).
  rewrite K4, Hkv in E7. cbn [resolveCurrentStatus] in E7.
  rewrite fetchAccessKeyStatus_run, A6 in E7.
  destruct (ok (accessKeyResponse w)); [| discriminate].
  injection E7 as <- _.
  split; [reflexivity |]. split.
  - by intros s ->.
  - intros Hom.
    by destruct (payload (accessKeyResponse w)) as [[[[[s|]]|]]|].
Qed.

End ControllerProperties.

(** The end-to-end scenario: quota "1GB", usage 1073741824 bytes, key
    enabled.  The key is disabled, with one set-status call, and the
    snapshot is written. *)
Example quota_reached_disables :
  exists result,
    fst (exampleRun true enabled) = Returned result /\
    rr_accessKeyStatus result = disabled /\
    rr_message result
    = "Disabling access key: Storage 1.00 GB exceeds quota 1.00 GB." /\
    updateCalls (snd (exampleRun true enabled))
    = [ setStatusRequest (exampleEnv (Some "1GB") None) disabled ] /\
    accessKeyStatus <$> (STATE_KV (snd (exampleRun true enabled)) !! STATE_KEY)
    = Some disabled.
Proof. eexists. split; [vm_compute; reflexivity |]. by vm_compute. Qed.

Lemma failed_toggle_not_persisted_witness :
  let env := exampleEnv (Some "1GB") None in
  let w := exampleWorld (usagePayload 1073741824 10 10) None false
             {[ STATE_KEY := storedWith enabled ]} in
  fst (@gatherInputs Reference.builtins env w)
  = Returned (exampleUsage, exampleThresholds, enabled) /\
  desiredStatus (evaluate enabled exampleThresholds) <> enabled /\
  ok (updateResponse w (desiredStatus (evaluate enabled exampleThresholds))) = false /\
  fst (exampleRun false enabled)
  = Thrown "Failed to update access key status: 500 Internal Server Error denied" /\
  STATE_KV (snd (exampleRun false enabled)) = STATE_KV w.
Proof.
  intros env w.
  assert (Hin : fst (@gatherInputs Reference.builtins env w)
                = Returned (exampleUsage, exampleThresholds, enabled))
    by reflexivity.
  assert (Hneq : desiredStatus (evaluate enabled exampleThresholds) <> enabled)
    by (vm_compute; discriminate).
  assert (Hfail : ok (updateResponse w
                        (desiredStatus (evaluate enabled exampleThresholds))) = false)
    by reflexivity.
  split; [exact Hin |]. split; [exact Hneq |]. split; [exact Hfail |].
  destruct (@failed_toggle_not_persisted Reference.builtins env w
              exampleUsage exampleThresholds enabled Hin Hneq Hfail)
    as (Ethrown & Ekv & _).
  split; [exact Ethrown | exact Ekv].
Defined.

Lemma live_status_defaults_enabled_witness :
  let env := exampleEnv None None in
  let answers :=
    Some {| ak_result := Some {| ak_status := Some disabled |} |} in
  let omits := Some {| ak_result := None |} in
  let w := exampleWorld (usagePayload 5 10 10) answers true ∅ in
  let w' := exampleWorld (usagePayload 5 10 10) omits true ∅ in
  STATE_KV w !! STATE_KEY = None /\
  fst (resolveCurrentStatus env (STATE_KV w !! STATE_KEY) w) = Returned disabled /\
  fst (resolveCurrentStatus env (STATE_KV w' !! STATE_KEY) w') = Returned enabled /\
  requests (snd (resolveCurrentStatus env (STATE_KV w !! STATE_KEY) w))
  = [ getAccessKeyRequest env ].
Proof.
  intros env answers omits w w'.
  destruct (@live_status_defaults_enabled Reference.builtins env w eq_refl)
    as (_ & Hsent & _ & Hanswer & _).
  destruct (@live_status_defaults_enabled Reference.builtins env w' eq_refl)
    as (_ & _ & _ & _ & Homitted & _).
  split; [reflexivity |].
  split; [by rewrite (Hanswer disabled eq_refl eq_refl) |].
  split; [by rewrite (Homitted eq_refl eq_refl) |].
  by rewrite Hsent.
Defined.

(* ===================================================================== *)
(** * The metric extractor *)
(* ===================================================================== *)

Section Extractor.
Variable keys : list string.

Lemma eachItem_eq (items : list value) :
  (fix eachItem (items : list value) : option number :=
     match items with
     | [] => None
     | item :: rest =>
         match findFirstNumberByKeys item keys with
         | Some candidate => Some candidate
         | None => eachItem rest
         end
     end) items = eachItem keys items.
Proof. induction items as [|item rest IH]; simpl; [reflexivity | by rewrite IH]. Qed.

Lemma findFirstNumberByKeys_Obj (fields : list (string * value)) :
  findFirstNumberByKeys (Obj fields) keys = loopFields keys fields.
Proof.
  simpl. induction fields as [|[key nested] rest IH]; simpl; [reflexivity|].
  rewrite IH. f_equal. destruct nested; try reflexivity. apply eachItem_eq.
Qed.

Lemma findFirstNumberByKeys_Arr (items : list value) :
  findFirstNumberByKeys (Arr items) keys = loopItems keys 0 items.
Proof.
  simpl. generalize 0.
  induction items as [|nested rest IH]; intros i; simpl; [reflexivity|].
  rewrite IH. f_equal. destruct nested; try reflexivity. apply eachItem_eq.
Qed.

Lemma findFirstNumberByKeys_scalar (v : value) :
  typeofObject v = false -> findFirstNumberByKeys v keys = None.
Proof. by destruct v. Qed.

(** The inner loop over the items of a nested array never finds anything
    the recursive call on that array has not found already. *)
Lemma loopItems_None (items : list value) (i : nat) :
  loopItems keys i items = None -> eachItem keys items = None.
Proof.
  revert i. induction items as [|item rest IH]; intros i; simpl; [done|].
  unfold visitEntry.
  destruct (if includes keys (showNat i) then finiteNumber item else None);
    [discriminate|].
  destruct (typeofObject item) eqn:Ht.
  - destruct (findFirstNumberByKeys item keys); [discriminate|].
    destruct (match item with Arr _ => _ | _ => None end); [discriminate|].
    apply IH.
  - rewrite (findFirstNumberByKeys_scalar item Ht).
    destruct (match item with Arr _ => _ | _ => None end); [discriminate|].
    apply IH.
Qed.

Lemma innerLoop_redundant (nested : value) :
  findFirstNumberByKeys nested keys = None -> innerLoop keys nested = None.
Proof.
  destruct nested; try reflexivity.
  rewrite findFirstNumberByKeys_Arr. apply loopItems_None.
Qed.

(** One iteration, without the redundant inner loop. *)
Lemma visitEntry_eq (key : string) (nested : value) (next : option number) :
  visitEntry keys key nested (findFirstNumberByKeys nested keys)
    (innerLoop keys nested) next
  = match (if includes keys key then finiteNumber nested else None) with
    | Some n => Some n
    | None =>
        match findFirstNumberByKeys nested keys with
        | Some candidate => Some candidate
        | None => next
        end
    end.
Proof.
  unfold visitEntry.
  destruct (if includes keys key then finiteNumber nested else None); [reflexivity|].
  destruct (typeofObject nested) eqn:Ht.
  - destruct (findFirstNumberByKeys nested keys) eqn:E; [reflexivity|].
    apply innerLoop_redundant in E.
    destruct nested; try reflexivity. by rewrite E.
  - rewrite (findFirstNumberByKeys_scalar nested Ht). by destruct nested.
Qed.

Lemma firstCandidate_app (a b : list (string * value)) :
  firstCandidate keys (a ++ b)
  = match firstCandidate keys a with
    | Some n => Some n
    | None => firstCandidate keys b
    end.
Proof.
  induction a as [|[k v] a IH]; simpl; [reflexivity|].
  by destruct (if includes keys k then finiteNumber v else None).
Qed.

Lemma isArrayIndex_showNat (i : nat) : isArrayIndex (showNat i) = true.
Proof.
  unfold isArrayIndex, showNat.
  rewrite NilEmpty.usu, DecimalNat.Unsigned.of_to. apply String.eqb_refl.
Qed.

Hypothesis keys_not_indices : existsb isArrayIndex keys = false.

Lemma index_not_candidate (i : nat) : includes keys (showNat i) = false.
Proof using keys_not_indices.
  unfold includes.
  destruct (existsb (String.eqb (showNat i)) keys) eqn:E; [| reflexivity].
  apply existsb_exists in E as (k & Hin & Hk).
  apply String.eqb_eq in Hk. subst k.
  assert (existsb isArrayIndex keys = true); [| congruence].
  apply existsb_exists. exists (showNat i). split; [done | apply isArrayIndex_showNat].
Qed.

(** The search of the code is the first candidate in depth-first order. *)
Lemma findFirstNumberByKeys_firstCandidate (v : value) :
  findFirstNumberByKeys v keys = firstCandidate keys (fieldsDepthFirst v).
Proof using keys_not_indices.
  induction v as [| b | n | s | items IH | fields IH] using value_ind';
    try reflexivity.
  - rewrite findFirstNumberByKeys_Arr. simpl fieldsDepthFirst. generalize 0.
    induction IH as [|item rest Hitem _ IHrest]; intros i; simpl; [reflexivity|].
    rewrite visitEntry_eq, index_not_candidate, firstCandidate_app, IHrest.
    by rewrite Hitem.
  - rewrite findFirstNumberByKeys_Obj. simpl fieldsDepthFirst.
    induction IH as [|[key nested] rest Hnested _ IHrest]; simpl; [reflexivity|].
    rewrite visitEntry_eq, firstCandidate_app, IHrest.
    simpl in Hnested. by rewrite Hnested.
Qed.

End Extractor.

(** C9, as stated, fails in three ways: a payload that is itself a finite
    number is returned although no field holds it; a [result] field holding
    [null] is passed over and the whole payload is searched; and an array
    element is a field named by its index, so that a candidate key such as
    "0" selects it. *)
Lemma extractMetric_first_candidate_counterexample :
  (extractMetric (Num (ofZ 42)) CANDIDATE_USAGE_KEYS = Some (ofZ 42) /\
   extractSpec (Num (ofZ 42)) CANDIDATE_USAGE_KEYS = None) /\
  (let p := Obj [ ("result", Null); ("usageBytes", Num (ofZ 10)) ] in
   extractMetric p CANDIDATE_USAGE_KEYS = Some (ofZ 10) /\
   extractSpec p CANDIDATE_USAGE_KEYS = None) /\
  (let p := Obj [ ("data", Arr [ Num (ofZ 7) ]) ] in
   extractMetric p [ "0" ] = Some (ofZ 7) /\ extractSpec p [ "0" ] = None).
Proof. repeat split. Qed.

(** C9, amended. For a payload that is not itself a number and whose
    [result] field, if any, is not [null], and for candidate keys none of
    which is the decimal form of an array index, extraction returns the
    first finite number, in depth-first order, held by a field named by a
    candidate key, the traversal starting from [result] when the payload
    has that field and from the payload otherwise; it returns absent when
    there is no such field. *)
Theorem extractMetric_first_candidate (payload : value) (keys : list string) :
  isNumber payload = false ->
  hasNullResult payload = false ->
  existsb isArrayIndex keys = false ->
  extractMetric payload keys = extractSpec payload keys.
Proof.
  intros Hnum Hnull Hkeys. unfold extractSpec.
  destruct payload as [| b | n | s | items | fields]; try reflexivity.
  - discriminate.
  - by apply findFirstNumberByKeys_firstCandidate.
  - unfold extractMetric, traversalRoot. simpl in Hnull.
    destruct (lookupField "result" fields) as [[]|];
      try discriminate; by apply findFirstNumberByKeys_firstCandidate.
Qed.

Lemma extractMetric_first_candidate_witness :
  let p := usagePayload 1073741824 10 20 in
  isNumber p = false /\ hasNullResult p = false /\
  existsb isArrayIndex CANDIDATE_CLASS_B_KEYS = false /\
  extractMetric p CANDIDATE_CLASS_B_KEYS = Some (ofZ 20) /\
  extractSpec p CANDIDATE_CLASS_B_KEYS = Some (ofZ 20).
Proof.
  intros p.
  split; [reflexivity |]. split; [reflexivity |]. split; [reflexivity |].
  split; [| reflexivity].
  rewrite (extractMetric_first_candidate p CANDIDATE_CLASS_B_KEYS
             eq_refl eq_refl eq_refl).
  reflexivity.
Defined.

(** The two cases the amended statement leaves out. *)
Lemma extractMetric_number (n : number) (keys : list string) :
  extractMetric (Num n) keys = if isFinite n then Some n else None.
Proof. reflexivity. Qed.

Lemma extractMetric_null_result (fields : list (string * value)) (keys : list string) :
  hasNullResult (Obj fields) = true ->
  existsb isArrayIndex keys = false ->
  extractMetric (Obj fields) keys
  = firstCandidate keys (fieldsDepthFirst (Obj fields)).
Proof.
  intros Hnull Hkeys. unfold extractMetric. simpl in Hnull.
  destruct (lookupField "result" fields) as [[]|]; try discriminate.
  by apply findFirstNumberByKeys_firstCandidate.
Qed.

(* ===================================================================== *)
(** * The usage fetch *)
(* ===================================================================== *)

(** C8. On an ok answer the usage fetch fails exactly when the extraction
    is absent for all three metrics; as soon as one metric has a value the
    fetch returns the snapshot, the other metrics absent or not. *)
Theorem usage_fetch_fails_iff_all_absent (env : Env) (w : World) :
  ok (usageResponse w) = true ->
  let p := payload (usageResponse w) in
  let allAbsent :=
    extractUsageBytes p = None /\ extractClassARequests p = None /\
    extractClassBRequests p = None in
  ((exists e, fst (fetchR2Usage env w) = Thrown e) <-> allAbsent) /\
  (allAbsent ->
   fst (fetchR2Usage env w)
   = Thrown "Could not determine any R2 usage metrics from API response") /\
  (~ allAbsent ->
   fst (fetchR2Usage env w)
   = Returned {| storageBytes := extractUsageBytes p;
                 classARequests := extractClassARequests p;
                 classBRequests := extractClassBRequests p |}).
Proof.
  intros Hok p allAbsent. subst allAbsent p.
  unfold fetchR2Usage, bind, send, ask. simpl. rewrite Hok. simpl.
  destruct (extractUsageBytes _) as [s|], (extractClassARequests _) as [a|],
    (extractClassBRequests _) as [b|]; simpl;
    (split; [split; [intros [e E]; discriminate | intros (?&?&?); discriminate]
            | split; [intros (?&?&?); discriminate | reflexivity]])
    || (split; [split; eauto | split; [reflexivity | intros N; by destruct N]]).
Qed.

Lemma usage_fetch_fails_iff_all_absent_witness :
  let w := exampleWorld (Obj [ ("result", Obj [ ("classARequests", Num (ofZ 7)) ]) ])
             None true ∅ in
  ok (usageResponse w) = true /\
  fst (fetchR2Usage (exampleEnv None None) w)
  = Returned {| storageBytes := None; classARequests := Some (ofZ 7);
                classBRequests := None |}.
Proof.
  intros w. split; [reflexivity |].
  apply (usage_fetch_fails_iff_all_absent (exampleEnv None None) w eq_refl).
  intros (_ & E & _). discriminate E.
Defined.

(* ===================================================================== *)
(** * Threshold resolution *)
(* ===================================================================== *)

(** An override above a resolved quota is itself above zero. *)
Lemma above_resolved_quota (q o : number) :
  resolvedQuota q = true -> gt o q = true -> lt o (ofZ 0) = false.
Proof.
  unfold resolvedQuota, gt, lt, le, SFltb, SFleb.
  destruct q as [sq | sq | | sq mq eq], o as [so | so | | so mo eo];
    try destruct sq; try destruct so; simpl; try discriminate; reflexivity.
Qed.

(** The parsers return a quota only if it is finite and above zero. *)
Lemma parseOptionalSize_resolved `{Builtins} (value : option string) (q : number) :
  parseOptionalSize value = Returned (Some q) -> resolvedQuota q = true.
Proof.
  unfold parseOptionalSize, resolvedQuota.
  destruct value as [s|]; [| discriminate].
  destruct (String.eqb s ""); [discriminate |].
  cbv zeta. destruct (isFinite (parseSizeToBytes _)) eqn:Hf; [| discriminate].
  destruct (le (parseSizeToBytes _) _) eqn:Hl; [discriminate |].
  cbn [negb orb]. intros E.
  assert (q = parseSizeToBytes (SizeString s)) as -> by congruence.
  by rewrite Hf, Hl.
Qed.

Lemma parseOptionalNumber_resolved `{Builtins} (s : string) (d : option number)
    (q : number) :
  s <> "" ->
  parseOptionalNumber (Some s) d = Returned (Some q) -> resolvedQuota q = true.
Proof.
  intros Hs. unfold parseOptionalNumber, resolvedQuota.
  destruct (String.eqb_spec s ""); [done |].
  cbv zeta. destruct (isFinite (Number s)) eqn:Hf; [| discriminate].
  destruct (le (Number s) _) eqn:Hl; [discriminate |].
  cbn [negb orb]. intros E.
  assert (q = Number s) as -> by congruence.
  by rewrite Hf, Hl.
Qed.

(** A plain decimal such as "100" is read by [Number] and then checked. *)
Lemma parseOptionalSize_decimal `{Builtins} (s : string) :
  String.eqb s "" = false -> isPlainDecimal (trim s) = true ->
  parseOptionalSize (Some s)
  = if negb (isFinite (Number (trim s))) || le (Number (trim s)) (ofZ 0)
    then Thrown "Invalid quota configuration (size value)"
    else Returned (Some (Number (trim s))).
Proof.
  intros Hs Hp. unfold parseOptionalSize, parseSizeToBytes.
  by rewrite Hs, Hp.
Qed.

(** C6. A finite override above the resolved quota is not an error: it
    resolves to [floor (quota * 0.9)] and one warning is written to the
    console; with no override and a quota the threshold is
    [floor (quota * 0.8)]; quota 100 with override 150 resolves to 90. *)
Theorem determineReenable_clamps (q : number) (w : World) :
  resolvedQuota q = true ->
  (forall o,
     isFinite o = true -> gt o q = true ->
     determineReenable (Some q) (Some o) w
     = (Returned (Some (floor (mul q lit_0_9))),
        withConsole
          "Re-enable threshold higher than quota; adjusting to 90% of quota" w)) /\
  determineReenable (Some q) None w
  = (Returned (Some (floor (mul q lit_0_8))), w) /\
  determineReenable (Some (ofZ 100)) (Some (ofZ 150)) w
  = (Returned (Some (ofZ 90)),
     withConsole
       "Re-enable threshold higher than quota; adjusting to 90% of quota" w).
Proof.
  intros Hq. split; [| split; reflexivity].
  intros o Hfin Hgt. unfold determineReenable.
  rewrite Hfin, (above_resolved_quota q o Hq Hgt), Hgt. reflexivity.
Qed.

Lemma determineReenable_clamps_witness :
  let w := exampleWorld Null None true ∅ in
  resolvedQuota (ofZ 1024) = true /\ isFinite (ofZ 2000) = true /\
  gt (ofZ 2000) (ofZ 1024) = true /\
  fst (determineReenable (Some (ofZ 1024)) (Some (ofZ 2000)) w)
  = Returned (Some (ofZ 921)).
Proof.
  intros w.
  split; [reflexivity |]. split; [reflexivity |]. split; [reflexivity |].
  rewrite (proj1 (determineReenable_clamps (ofZ 1024) w eq_refl)
             (ofZ 2000) eq_refl eq_refl).
  reflexivity.
Defined.

(** [determineReenable] itself rejects an override exactly when it is not
    finite or is below zero; zero is accepted. *)
Lemma determineReenable_rejects_iff (q : option number) (o : number) (w : World) :
  (exists e, fst (determineReenable q (Some o) w) = Thrown e)
  <-> isFinite o = false \/ lt o (ofZ 0) = true.
Proof.
  unfold determineReenable.
  destruct (isFinite o) eqn:Hf, (lt o (ofZ 0)) eqn:Hl; simpl.
  - split; eauto.
  - split; [| intros [|]; discriminate].
    intros [e E]. destruct q as [q|]; [destruct (gt o q) |]; discriminate.
  - split; eauto.
  - split; eauto.
Qed.

(** The numeric parser rejects a value that reads as zero. *)
Lemma parseOptionalNumber_zero `{Builtins} (s : string) (d : option number) :
  String.eqb s "" = false -> Number s = ofZ 0 ->
  parseOptionalNumber (Some s) d = Thrown "Invalid numeric quota configuration".
Proof. intros Hs H0. unfold parseOptionalNumber. by rewrite Hs, H0. Qed.

(** The single-metric version accepts the same configuration: there the
    override is read by [parseSizeToBytes] and checked against zero with
    [<], not [<=]. *)
Lemma legacy_accepts_zero_override `{Builtins} (w : World) :
  Number "100" = ofZ 100 -> Number "0" = ofZ 0 ->
  Legacy.resolveThresholds (exampleEnv (Some "100") (Some "0")) w
  = (Returned (ofZ 100, ofZ 0), w).
Proof.
  intros H100 H0. unfold Legacy.resolveThresholds, Legacy.sizeOf.
  cbn [exampleEnv QUOTA_BYTES REENABLE_THRESHOLD CF_ACCOUNT_ID CF_API_TOKEN
       R2_ACCESS_KEY_ID falsy].
  assert (E100 : parseSizeToBytes (SizeString "100") = ofZ 100)
    by (unfold parseSizeToBytes; change (trim "100") with "100";
        cbn [String.eqb]; by rewrite <- H100).
  assert (E0 : parseSizeToBytes (SizeString "0") = ofZ 0)
    by (unfold parseSizeToBytes; change (trim "0") with "0";
        cbn [String.eqb]; by rewrite <- H0).
  rewrite E100, E0. reflexivity.
Qed.

(** C7, at the failing input. With a storage quota of "100" and a
    re-enable override of "0", threshold resolution throws: the override is
    read by the quota parser, which rejects zero, before [determineReenable]
    is reached, although [determineReenable] accepts a zero override. *)
Theorem zero_override_rejected `{Builtins} (w : World) :
  Number "100" = ofZ 100 -> Number "0" = ofZ 0 ->
  fst (normaliseThresholds (exampleEnv (Some "100") (Some "0")) w)
  = Thrown "Invalid quota configuration (size value)" /\
  fst (determineReenable (Some (ofZ 100)) (Some (ofZ 0)) w)
  = Returned (Some (ofZ 0)).
Proof.
  intros H100 H0. split; [| reflexivity].
  unfold normaliseThresholds, bind, lift.
  cbn [exampleEnv QUOTA_BYTES REENABLE_THRESHOLD].
  rewrite (parseOptionalSize_decimal "100" eq_refl eq_refl).
  change (trim "100") with "100". rewrite H100.
  rewrite (parseOptionalSize_decimal "0" eq_refl eq_refl).
  change (trim "0") with "0". rewrite H0.
  reflexivity.
Qed.

Lemma zero_override_rejected_witness :
  let w := exampleWorld Null None true ∅ in
  @Number Reference.builtins "100" = ofZ 100 /\
  @Number Reference.builtins "0" = ofZ 0 /\
  fst (@normaliseThresholds Reference.builtins
         (exampleEnv (Some "100") (Some "0")) w)
  = Thrown "Invalid quota configuration (size value)".
Proof.
  intros w. split; [reflexivity |]. split; [reflexivity |].
  exact (proj1 (@zero_override_rejected Reference.builtins w eq_refl eq_refl)).
Defined.

(** ** Metrics without a quota *)

(** A metric without a quota is never over quota. *)
Lemma quotaless_never_over (m : MetricThreshold) :
  quota m = None -> isOverQuota m = false /\ overQuotaReason m = [].
Proof. unfold isOverQuota, overQuotaReason. by intros ->. Qed.

(** Without a quota and without an override there is no threshold. *)
Lemma quotaless_without_override (w : World) :
  determineReenable None None w = (Returned None, w).
Proof. reflexivity. Qed.

(** C2, at the failing input. With no storage quota and a re-enable
    override of "50", resolution gives the storage metric the threshold 50
    although it has no quota, and at storage usage 100 from the disabled
    state the evaluator keeps the key disabled; with the storage usage
    absent, all else equal, it enables the key. *)
Theorem quotaless_override_blocks `{Builtins} (w : World) :
  Number "50" = ofZ 50 ->
  exists ths,
    fst (normaliseThresholds (exampleEnv None (Some "50")) w) = Returned ths /\
    map quota ths = [ None; Some (ofZ 1000000); Some (ofZ 10000000) ] /\
    map reenable ths = [ Some (ofZ 50); Some (ofZ 800000); Some (ofZ 8000000) ] /\
    desiredStatus
      (evaluate disabled
         (map (assignUsage {| storageBytes := Some (ofZ 100);
                              classARequests := Some (ofZ 10);
                              classBRequests := Some (ofZ 10) |}) ths))
    = disabled /\
    desiredStatus
      (evaluate disabled
         (map (assignUsage {| storageBytes := None;
                              classARequests := Some (ofZ 10);
                              classBRequests := Some (ofZ 10) |}) ths))
    = enabled.
Proof.
  intros H50.
  unfold normaliseThresholds, bind, lift.
  cbn [exampleEnv QUOTA_BYTES REENABLE_THRESHOLD].
  rewrite (parseOptionalSize_decimal "50" eq_refl eq_refl).
  change (trim "50") with "50". rewrite H50.
  eexists. split; [reflexivity |].
  repeat split; rewrite ?desiredStatus_evaluate; reflexivity.
Qed.

(** The same input run end to end under the reference built-ins: the key
    stays disabled and the message names the storage metric as the one
    above its threshold. *)
Example quotaless_override_run :
  let w := exampleWorld (usagePayload 100 10 10) None true
             {[ STATE_KEY := storedWith disabled ]} in
  exists result,
    fst (@runQuotaController Reference.builtins (exampleEnv None (Some "50")) w)
    = Returned result /\
    rr_accessKeyStatus result = disabled /\
    rr_message result
    = "Keeping access key disabled. Metrics: Storage 100 B > 50 B; Class A requests 10 <= 800,000; Class B requests 10 <= 8,000,000.".
Proof. intros w. eexists. split; [vm_compute; reflexivity |]. by vm_compute. Qed.

Lemma quotaless_override_blocks_witness :
  let w := exampleWorld Null None true ∅ in
  @Number Reference.builtins "50" = ofZ 50 /\
  exists ths,
    fst (@normaliseThresholds Reference.builtins (exampleEnv None (Some "50")) w)
    = Returned ths /\
    map reenable ths = [ Some (ofZ 50); Some (ofZ 800000); Some (ofZ 8000000) ].
Proof.
  intros w. split; [reflexivity |].
  destruct (@quotaless_override_blocks Reference.builtins w eq_refl)
    as (ths & E & _ & R & _).
  exists ths. split; [exact E | exact R].
Defined.

(* ===================================================================== *)
(** * Further properties of the evaluator *)
(* ===================================================================== *)

Lemma existsb_permutation {A} (f : A -> bool) (l l' : list A) :
  Permutation l l' -> existsb f l = existsb f l'.
Proof.
  intros Hp. induction Hp as [| x l l' _ IH | x y l | l l' l'' _ IH1 _ IH2]; simpl.
  - reflexivity.
  - by rewrite IH.
  - by destruct (f x), (f y).
  - congruence.
Qed.

Lemma forallb_permutation {A} (f : A -> bool) (l l' : list A) :
  Permutation l l' -> forallb f l = forallb f l'.
Proof.
  intros Hp. induction Hp as [| x l l' _ IH | x y l | l l' l'' _ IH1 _ IH2]; simpl.
  - reflexivity.
  - by rewrite IH.
  - by destruct (f x), (f y).
  - congruence.
Qed.

Lemma flat_map_permutation {A B} (f : A -> list B) (l l' : list A) :
  Permutation l l' -> Permutation (flat_map f l) (flat_map f l').
Proof.
  intros Hp. induction Hp as [| x l l' _ IH | x y l | l l' l'' _ IH1 _ IH2]; simpl.
  - constructor.
  - by apply Permutation_app_head.
  - rewrite !app_assoc. apply Permutation_app_tail, Permutation_app_comm.
  - by etransitivity.
Qed.

Lemma noneOverQuota (ms : list MetricThreshold) :
  existsb isOverQuota ms = false -> flat_map overQuotaReason ms = [].
Proof.
  intros Hnone. apply length_zero_iff_nil.
  pose proof (anyOverQuota ms) as E. rewrite Hnone in E.
  destruct (length (flat_map overQuotaReason ms)); [reflexivity | discriminate].
Qed.

Lemma desiredStatus_stable (current : AccessKeyStatus) (ms : list MetricThreshold) :
  desiredStatus (evaluate (desiredStatus (evaluate current ms)) ms)
  = desiredStatus (evaluate current ms).
Proof.
  rewrite !desiredStatus_evaluate.
  by destruct (existsb isOverQuota ms), (forallb allowsReenable ms).
Qed.

(** X1. The decision does not depend on the order of the metrics: a
    permutation of the list gives the same next state, and the same reasons
    up to their order. *)
Theorem evaluate_permutation (current : AccessKeyStatus)
    (ms ms' : list MetricThreshold) :
  Permutation ms ms' ->
  desiredStatus (evaluate current ms) = desiredStatus (evaluate current ms') /\
  Permutation (overQuotaReasons (evaluate current ms))
              (overQuotaReasons (evaluate current ms')) /\
  Permutation (reenableChecks (evaluate current ms))
              (reenableChecks (evaluate current ms')).
Proof.
  intros Hp.
  destruct (reasons_evaluate current ms) as [-> ->].
  destruct (reasons_evaluate current ms') as [-> ->].
  rewrite !desiredStatus_evaluate.
  rewrite (existsb_permutation _ _ _ Hp), (forallb_permutation _ _ _ Hp).
  split; [reflexivity |]. split; by apply flat_map_permutation.
Qed.

Lemma evaluate_permutation_witness :
  let a := metric_100_80 storage (fun _ => "a") 85 in
  let b := metric_100_80 classA (fun _ => "b") 120 in
  Permutation [a; b] [b; a] /\
  desiredStatus (evaluate enabled [a; b]) = desiredStatus (evaluate enabled [b; a]).
Proof.
  intros a b. split; [apply perm_swap |].
  exact (proj1 (evaluate_permutation enabled [a; b] [b; a] (perm_swap b a []))).
Defined.

(** X2. Deciding again from the decided state changes nothing: the next
    state is a fixed point of the evaluator for the same metrics, and the
    two reason lists do not depend on the current state at all. *)
Theorem evaluate_idempotent (current other : AccessKeyStatus)
    (ms : list MetricThreshold) :
  desiredStatus (evaluate (desiredStatus (evaluate current ms)) ms)
  = desiredStatus (evaluate current ms) /\
  overQuotaReasons (evaluate current ms) = overQuotaReasons (evaluate other ms) /\
  reenableChecks (evaluate current ms) = reenableChecks (evaluate other ms).
Proof.
  split; [apply desiredStatus_stable |].
  destruct (reasons_evaluate current ms) as [-> ->].
  by destruct (reasons_evaluate other ms) as [-> ->].
Qed.

(** X3. The state changes only for cause.  An enabled key is disabled
    exactly when some metric is over its quota; a disabled key is enabled
    exactly when no metric is over its quota and every metric with a usage
    and a threshold is at or below the threshold.  Every over-quota metric
    is reported: there are as many over-quota reasons as such metrics. *)
Theorem evaluate_changes_for_cause (ms : list MetricThreshold) :
  (desiredStatus (evaluate enabled ms) = disabled
   <-> existsb isOverQuota ms = true) /\
  (desiredStatus (evaluate disabled ms) = enabled
   <-> existsb isOverQuota ms = false /\ forallb allowsReenable ms = true) /\
  (forall current,
     length (overQuotaReasons (evaluate current ms)) = overQuotaCount ms).
Proof.
  rewrite !desiredStatus_evaluate. split; [| split].
  - destruct (existsb isOverQuota ms), (forallb allowsReenable ms);
      intuition congruence.
  - destruct (existsb isOverQuota ms), (forallb allowsReenable ms);
      intuition congruence.
  - intros current. destruct (reasons_evaluate current ms) as [-> _].
    unfold overQuotaCount.
    induction ms as [|m ms IH]; [reflexivity |].
    simpl. rewrite length_app, overQuotaReason_length, IH.
    by destruct (isOverQuota m).
Qed.

(** X4. Composition of the evaluator with the message builder.  The message
    is the disabling one exactly when some metric is over quota, the
    re-enabling one when none is, all allow it and the key was disabled,
    and the keeping one otherwise; the keeping message never lists an
    over-quota reason. *)
Theorem message_of_decision (current : AccessKeyStatus) (ms : list MetricThreshold) :
  messageOf current (evaluate current ms)
  = if existsb isOverQuota ms
    then "Disabling access key: " ++ join "; " (flat_map overQuotaReason ms) ++ "."
    else if forallb allowsReenable ms && statusEqb current disabled
    then "Re-enabling access key: " ++ join "; " (flat_map reenableCheck ms) ++ "."
    else "Keeping access key " ++ statusText_of current ++ ". Metrics: "
           ++ orElse (join "; " (flat_map reenableCheck ms))
                "no thresholds configured" ++ ".".
Proof.
  unfold messageOf. destruct (reasons_evaluate current ms) as [-> ->].
  rewrite desiredStatus_evaluate. unfold buildStatusMessage.
  destruct (existsb isOverQuota ms) eqn:Hover.
  - rewrite anyOverQuota, Hover. reflexivity.
  - rewrite (noneOverQuota ms Hover).
    destruct (forallb allowsReenable ms), current; reflexivity.
Qed.

(** X5. With one metric whose usage, quota and threshold are all present,
    the multi-metric evaluator decides as the single-metric version of the
    worker does. *)
Theorem single_metric_agreement `{Builtins} (current : AccessKeyStatus)
    (u q r : number) (n : MetricName) (fmt : option number -> string) :
  fst (SingleMetric.decide current u q r)
  = desiredStatus
      (evaluate current
         [ {| name := n; usage := Some u; quota := Some q; reenable := Some r;
              formatter := fmt |} ]).
Proof.
  rewrite desiredStatus_evaluate. unfold SingleMetric.decide. simpl.
  unfold isOverQuota, allowsReenable. simpl.
  destruct (ge u q); [reflexivity |]. by destruct (le u r).
Qed.

(* ===================================================================== *)
(** * Further properties of the extractor and of the usage fetch *)
(* ===================================================================== *)

Lemma finiteNumber_finite (v : value) (n : number) :
  finiteNumber v = Some n -> isFinite n = true.
Proof.
  destruct v as [| | m | | |]; simpl; try discriminate.
  destruct (isFinite m) eqn:E; [| discriminate]. by intros [= <-].
Qed.

Lemma findFirstNumberByKeys_finite (keys : list string) (v : value) (n : number) :
  findFirstNumberByKeys v keys = Some n -> isFinite n = true.
Proof.
  revert n.
  induction v as [| b | m | s | items IH | fields IH] using value_ind';
    intros n; try discriminate.
  - rewrite findFirstNumberByKeys_Arr. generalize 0.
    induction IH as [|item rest Hitem _ IHrest]; intros i; simpl; [discriminate |].
    rewrite visitEntry_eq.
    destruct (includes keys (showNat i)).
    + destruct (finiteNumber item) eqn:Ef.
      * intros [= <-]. by eapply finiteNumber_finite.
      * destruct (findFirstNumberByKeys item keys); [by intros [= <-]; apply Hitem |].
        apply IHrest.
    + destruct (findFirstNumberByKeys item keys); [by intros [= <-]; apply Hitem |].
      apply IHrest.
  - rewrite findFirstNumberByKeys_Obj.
    induction IH as [|[key nested] rest Hnested _ IHrest]; simpl; [discriminate |].
    rewrite visitEntry_eq. simpl in Hnested.
    destruct (includes keys key).
    + destruct (finiteNumber nested) eqn:Ef.
      * intros [= <-]. by eapply finiteNumber_finite.
      * destruct (findFirstNumberByKeys nested keys);
          [by intros [= <-]; apply Hnested |].
        apply IHrest.
    + destruct (findFirstNumberByKeys nested keys);
        [by intros [= <-]; apply Hnested |].
      apply IHrest.
Qed.

Lemma extractMetric_finite_value (payload : value) (keys : list string) (n : number) :
  extractMetric payload keys = Some n -> isFinite n = true.
Proof.
  unfold extractMetric.
  destruct payload as [| b | m | s | items | fields]; try discriminate.
  - destruct (isFinite m) eqn:E; [| discriminate]. by intros [= <-].
  - apply findFirstNumberByKeys_finite.
  - apply findFirstNumberByKeys_finite.
Qed.

(** X6. A usage is finite or absent: whatever the payload and the candidate
    keys, a value the extractor returns is a finite number, never [NaN] or
    an infinity. *)
Theorem extractMetric_finite (payload : value) (keys : list string) (n : number) :
  extractMetric payload keys = Some n -> isFinite n = true.
Proof. apply extractMetric_finite_value. Qed.

Lemma extractMetric_finite_witness :
  let p := Obj [ ("usageBytes", Num (S754_infinity false));
                 ("items", Arr [ Obj [ ("usage_bytes", Num (ofZ 12)) ] ]) ] in
  extractMetric p CANDIDATE_USAGE_KEYS = Some (ofZ 12) /\
  isFinite (ofZ 12) = true.
Proof.
  intros p. split; [reflexivity |].
  exact (extractMetric_finite p CANDIDATE_USAGE_KEYS (ofZ 12) eq_refl).
Defined.

(** The single-metric extraction, in terms of the multi-metric one. *)
Lemma singleMetric_extract (payload : value) :
  extractUsageBytes payload
  = if isFinite (SingleMetric.extractUsageBytes payload)
    then Some (SingleMetric.extractUsageBytes payload) else None.
Proof.
  unfold extractUsageBytes, extractMetric, SingleMetric.extractUsageBytes.
  destruct payload as [| b | m | s | items | fields]; try reflexivity.
  - destruct (findFirstNumberByKeys _ _) as [n|] eqn:E; [| reflexivity].
    by rewrite (findFirstNumberByKeys_finite _ _ _ E).
  - destruct (findFirstNumberByKeys _ _) as [n|] eqn:E; [| reflexivity].
    by rewrite (findFirstNumberByKeys_finite _ _ _ E).
Qed.

(** X7. The two versions of the usage fetch agree on storage: the
    single-metric fetch returns [n] exactly when the answer is ok and the
    multi-metric extraction of the storage usage gives [n]. *)
Theorem singleMetric_fetch_agreement (env : Env) (w : World) (n : number) :
  fst (SingleMetric.fetchR2Usage env w) = Returned n
  <-> ok (usageResponse w) = true /\
      extractUsageBytes (payload (usageResponse w)) = Some n.
Proof.
  unfold SingleMetric.fetchR2Usage, bind, send, ask. simpl.
  rewrite singleMetric_extract.
  destruct (ok (usageResponse w)); simpl; [| split; [discriminate | by intros [? _]]].
  destruct (isFinite (SingleMetric.extractUsageBytes _)); simpl.
  - split; [intros [= <-]; by split | intros [_ [= <-]]; reflexivity].
  - split; [discriminate | intros [_ ?]; discriminate].
Qed.

(** X8. What a usage fetch that returns guarantees: the answer was ok, at
    least one of the three metrics is present, and every metric present is
    finite.  Whether it returns or throws, it sends exactly the usage
    lookup and touches neither the KV namespace nor the console. *)
Theorem fetchR2Usage_returns (env : Env) (w : World) (usage : UsageSnapshot) :
  fst (fetchR2Usage env w) = Returned usage ->
  ok (usageResponse w) = true /\
  present (storageBytes usage) || present (classARequests usage)
    || present (classBRequests usage) = true /\
  finiteIfPresent (storageBytes usage) = true /\
  finiteIfPresent (classARequests usage) = true /\
  finiteIfPresent (classBRequests usage) = true /\
  snd (fetchR2Usage env w) = withRequest (getUsageRequest env) w.
Proof.
  unfold fetchR2Usage, bind, send, ask. simpl.
  destruct (ok (usageResponse w)); simpl; [| discriminate].
  set (p := payload (usageResponse w)).
  assert (Hs : finiteIfPresent (extractUsageBytes p) = true).
  { destruct (extractUsageBytes p) eqn:E; [| reflexivity].
    by apply extractMetric_finite_value in E. }
  assert (Ha : finiteIfPresent (extractClassARequests p) = true).
  { destruct (extractClassARequests p) eqn:E; [| reflexivity].
    by apply extractMetric_finite_value in E. }
  assert (Hb : finiteIfPresent (extractClassBRequests p) = true).
  { destruct (extractClassBRequests p) eqn:E; [| reflexivity].
    by apply extractMetric_finite_value in E. }
  destruct (extractUsageBytes p), (extractClassARequests p),
    (extractClassBRequests p); simpl; try discriminate;
    intros [= <-]; simpl; repeat split; assumption.
Qed.

Lemma fetchR2Usage_returns_witness :
  let w := exampleWorld (Obj [ ("result", Obj [ ("classARequests", Num (ofZ 7)) ]) ])
             None true ∅ in
  let usage := {| storageBytes := None; classARequests := Some (ofZ 7);
                  classBRequests := None |} in
  fst (fetchR2Usage (exampleEnv None None) w) = Returned usage /\
  requests (snd (fetchR2Usage (exampleEnv None None) w))
  = [ getUsageRequest (exampleEnv None None) ].
Proof.
  intros w usage. split; [reflexivity |].
  destruct (fetchR2Usage_returns (exampleEnv None None) w usage eq_refl)
    as (_ & _ & _ & _ & _ & E).
  by rewrite E.
Defined.

(* ===================================================================== *)
(** * Further properties of configuration parsing *)
(* ===================================================================== *)



(** A plain byte takes no part in a white space character, at any of its
    positions. *)
Lemma plainByte_class (c : ascii) :
  plainByte c = true ->
  isSpace c = false /\
  forall d e,
    isSpace2 c d = false /\ isSpace2 d c = false /\
    isSpace3 c d e = false /\ isSpace3 d c e = false /\ isSpace3 d e c = false.
Proof.
  unfold plainByte. intros [Hlt Hs%negb_true_iff]%andb_true_iff.
  apply Nat.ltb_lt in Hlt. split; [exact Hs |]. intros d e.
  unfold isSpace2, isSpace3. cbv zeta.
  generalize dependent (nat_of_ascii c).
  generalize (nat_of_ascii d) (nat_of_ascii e). intros nd ne nc Hlt.
  repeat split;
    repeat (match goal with
            | |- context [(?x =? ?y)%nat] => destruct (Nat.eqb_spec x y)
            | |- context [(?x <=? ?y)%nat] => destruct (Nat.leb_spec x y)
            end; cbn [andb orb]; try lia);
    reflexivity.
Qed.

Lemma trimStart_cons (c : ascii) (rest : string) :
  trimStart (String c rest) =
  if isSpace c then trimStart rest
  else
    match rest with
    | EmptyString => String c rest
    | String d rest2 =>
        if isSpace2 c d then trimStart rest2
        else
          match rest2 with
          | EmptyString => String c rest
          | String e rest3 =>
              if isSpace3 c d e then trimStart rest3 else String c rest
          end
    end.
Proof. reflexivity. Qed.

Lemma trimEnd_cons (c : ascii) (rest : string) :
  trimEnd (String c rest) =
  if String.eqb (trimStart (String c rest)) "" then EmptyString
  else String c (trimEnd rest).
Proof. reflexivity. Qed.

(** Nothing is trimmed in front of a plain byte. *)
Lemma trimStart_plain (c : ascii) (rest : string) :
  plainByte c = true -> trimStart (String c rest) = String c rest.
Proof.
  intros Hp. destruct (plainByte_class c Hp) as [Hs Hc].
  rewrite trimStart_cons, Hs.
  destruct rest as [|d [|e rest]]; [reflexivity | |].
  - by destruct (Hc d d) as (-> & _).
  - by destruct (Hc d e) as (-> & _ & -> & _).
Qed.




Lemma string_app_cons (x : ascii) (a b : string) :
  String x a ++ b = String x (a ++ b).
Proof. reflexivity. Qed.


Lemma string_app_nil_r (a : string) : a ++ "" = a.
Proof.
  induction a as [|x a IH]; [reflexivity |].
  by rewrite string_app_cons, IH.
Qed.





Lemma trimEnd_allPlain (u : string) : allPlain u = true -> trimEnd u = u.
Proof.
  induction u as [|c u IH]; [reflexivity |].
  cbn [allPlain]. intros [Hc Hu]%andb_true_iff.
  by rewrite trimEnd_cons, (trimStart_plain c u Hc), (IH Hu).
Qed.






Lemma allPlain_trimStart (u : string) : allPlain u = true -> trimStart u = u.
Proof.
  destruct u as [|c u]; [reflexivity |]. cbn [allPlain].
  intros [Hc _]%andb_true_iff. by apply trimStart_plain.
Qed.




(** X10. A size that does not start with a digit once trimmed (a sign, a
    word, only blanks) is not a number, and as a quota or threshold it is
    rejected: [parseOptionalSize] throws. *)
Theorem parseOptionalSize_rejects_nondigit `{Builtins} (s : string) :
  s <> "" -> startsWithDigit (trim s) = false ->
  parseSizeToBytes (SizeString s) = NaN /\
  parseOptionalSize (Some s) = Thrown "Invalid quota configuration (size value)".
Proof.
  intros Hs Hstart.
  assert (Hnan : parseSizeToBytes (SizeString s) = NaN).
  { unfold parseSizeToBytes. destruct (String.eqb_spec s ""); [done |].
    assert (Hm : matchDecimal (trim s) = None).
    { unfold matchDecimal. destruct (trim s) as [|c t]; [reflexivity |].
      simpl in Hstart. simpl. by rewrite Hstart. }
    unfold isPlainDecimal, matchSize. by rewrite Hm. }
  split; [exact Hnan |].
  unfold parseOptionalSize. destruct (String.eqb_spec s ""); [done |].
  by rewrite Hnan.
Qed.

Lemma parseOptionalSize_rejects_nondigit_witness :
  "-5" <> "" /\ startsWithDigit (trim "-5") = false /\
  @parseOptionalSize Reference.builtins (Some "-5")
  = Thrown "Invalid quota configuration (size value)".
Proof.
  split; [discriminate |]. split; [reflexivity |].
  exact (proj2 (@parseOptionalSize_rejects_nondigit Reference.builtins "-5"
                  ltac:(discriminate) eq_refl)).
Defined.

(** The three widths of white space exclude one another: the first byte
    tells which one applies. *)
Lemma space_widths (c d e : ascii) :
  (isSpace c = true -> isSpace2 c d = false /\ isSpace3 c d e = false) /\
  (isSpace2 c d = true -> isSpace3 c d e = false).
Proof.
  unfold isSpace, isSpace2, isSpace3. cbv zeta.
  generalize (nat_of_ascii c) (nat_of_ascii d) (nat_of_ascii e).
  intros nc nd ne.
  split; [intros Hyp; split | intros Hyp]; revert Hyp;
    repeat (match goal with
            | |- context [(?x =? ?y)%nat] => destruct (Nat.eqb_spec x y)
            | |- context [(?x <=? ?y)%nat] => destruct (Nat.leb_spec x y)
            end; cbn [andb orb]; try lia);
    intros Hyp; first [reflexivity | discriminate Hyp].
Qed.

Lemma whiteSpace_cons (c : ascii) (rest : string) :
  whiteSpace (String c rest) =
  (isSpace c && whiteSpace rest)
  || match rest with
     | EmptyString => false
     | String d rest2 =>
         (isSpace2 c d && whiteSpace rest2)
         || match rest2 with
            | EmptyString => false
            | String e rest3 => isSpace3 c d e && whiteSpace rest3
            end
     end.
Proof. reflexivity. Qed.

(** Leading white space of any width is trimmed. *)
Lemma trimStart_whiteSpace (u : string) (n : nat) :
  forall ws : string,
    (String.length ws <= n)%nat -> whiteSpace ws = true ->
    trimStart (ws ++ u) = trimStart u.
Proof.
  induction n as [n IH] using lt_wf_ind. intros ws Hlen Hws.
  destruct ws as [|c ws]; [reflexivity |].
  rewrite whiteSpace_cons in Hws.
  rewrite string_app_cons, trimStart_cons. cbn [String.length] in Hlen.
  destruct (isSpace c) eqn:Hc.
  { destruct ws as [|d ws];
      [reflexivity |].
    destruct (proj1 (space_widths c d d) Hc) as [H2 _].
    rewrite H2 in Hws. cbn [andb orb] in Hws.
    destruct ws as [|e ws].
    - rewrite orb_false_r in Hws.
      apply (IH (String.length (String d ""))); [cbn in *; lia | lia | exact Hws].
    - destruct (proj1 (space_widths c d e) Hc) as [_ H3].
      rewrite H3, orb_false_r in Hws.
      apply (IH (String.length (String d (String e ws))));
        [cbn in *; lia | lia | exact Hws]. }
  cbn [andb orb] in Hws.
  destruct ws as [|d ws]; [discriminate |].
  rewrite string_app_cons. cbv iota. cbn [String.length] in Hlen.
  destruct (isSpace2 c d) eqn:Hcd.
  { destruct ws as [|e ws]; [reflexivity |].
    rewrite (proj2 (space_widths c d e) Hcd), orb_false_r in Hws.
    apply (IH (String.length (String e ws))); [cbn in *; lia | lia | exact Hws]. }
  cbn [andb orb] in Hws.
  destruct ws as [|e ws]; [discriminate |].
  rewrite string_app_cons. cbv iota. cbn [String.length] in Hlen.
  destruct (isSpace3 c d e); [| discriminate].
  apply (IH (String.length ws)); [lia | lia | exact Hws].
Qed.

Lemma trimStart_all_whiteSpace (ws : string) :
  whiteSpace ws = true -> trimStart ws = "".
Proof.
  intros Hws. rewrite <- (string_app_nil_r ws).
  by rewrite (trimStart_whiteSpace "" _ ws (le_n _) Hws).
Qed.

(** Trailing white space of any width is trimmed, up to the plain bytes
    before it. *)
Lemma trimEnd_whiteSpace (s ws : string) :
  allPlain s = true -> whiteSpace ws = true -> trimEnd (s ++ ws) = s.
Proof.
  intros Hs Hws. induction s as [|c s IH].
  - change ("" ++ ws) with ws. destruct ws as [|c ws]; [reflexivity |].
    by rewrite trimEnd_cons, (trimStart_all_whiteSpace _ Hws).
  - cbn [allPlain] in Hs. apply andb_true_iff in Hs as [Hc Hs].
    by rewrite string_app_cons, trimEnd_cons, (trimStart_plain c _ Hc), (IH Hs).
Qed.

(** X24. White space around a size is ignored, whatever its width: with
    white space characters (ASCII blanks and line ends, U+00A0, U+1680,
    U+2000 to U+200A, U+2028, U+2029, U+202F, U+205F, U+3000, U+FEFF)
    before and after a string of ASCII characters that are not white
    space, the trimmed string is that string and the size parsed is the
    size of that string. *)
Theorem parseSizeToBytes_ignores_white_space `{Builtins}
    (before s after : string) :
  whiteSpace before = true -> allPlain s = true -> whiteSpace after = true ->
  trim (before ++ s ++ after) = s /\
  parseSizeToBytes (SizeString (before ++ s ++ after))
  = parseSizeToBytes (SizeString s).
Proof.
  intros Hb Hs Ha.
  assert (Htrim : trim (before ++ s ++ after) = s).
  { unfold trim. rewrite (trimStart_whiteSpace _ _ before (le_n _) Hb).
    destruct s as [|c s].
    - change ("" ++ after) with after.
      by rewrite (trimStart_all_whiteSpace _ Ha).
    - pose proof Hs as Hs'. cbn [allPlain] in Hs'.
      apply andb_true_iff in Hs' as [Hc _].
      rewrite string_app_cons, (trimStart_plain c _ Hc), <- string_app_cons.
      by apply trimEnd_whiteSpace. }
  split; [exact Htrim |].
  assert (Hself : trim s = s).
  { unfold trim. by rewrite (allPlain_trimStart s Hs), (trimEnd_allPlain s Hs). }
  unfold parseSizeToBytes. rewrite Htrim, Hself.
  destruct (String.eqb_spec s "") as [-> | _].
  - by destruct (String.eqb (before ++ "" ++ after) "").
  - destruct (String.eqb_spec (before ++ s ++ after) "") as [E | _]; [| done].
    rewrite E in Htrim. by rewrite <- Htrim.
Qed.

Lemma parseSizeToBytes_ignores_white_space_witness :
  let before := nbsp ++ " " ++ emSpace in
  let after := byteOrderMark ++ lineSeparator in
  whiteSpace before = true /\ allPlain "1GB" = true /\ whiteSpace after = true /\
  trim (before ++ "1GB" ++ after) = "1GB" /\
  @parseSizeToBytes Reference.builtins (SizeString (before ++ "1GB" ++ after))
  = ofZ 1073741824.
Proof.
  intros before after.
  split; [reflexivity |]. split; [reflexivity |]. split; [reflexivity |].
  destruct (@parseSizeToBytes_ignores_white_space Reference.builtins
              before "1GB" after eq_refl eq_refl eq_refl) as [Et Ep].
  split; [exact Et |]. rewrite Ep. reflexivity.
Defined.

(* ===================================================================== *)
(** * Further properties of threshold resolution *)
(* ===================================================================== *)

Lemma SFcompare_antisym (x y : number) :
  SFcompare y x = option_map CompOpp (SFcompare x y).
Proof.
  destruct x as [sx | sx | | sx mx ex], y as [sy | sy | | sy my ey];
    try destruct sx; try destruct sy; try reflexivity; simpl;
    rewrite (Z.compare_antisym ex ey);
    destruct (ex ?= ey)%Z; simpl; try reflexivity;
    pose proof (Pos.compare_cont_antisym mx my Eq) as A; simpl in A;
    rewrite <- A; by destruct (Pos.compare_cont Eq mx my).
Qed.

(** [o <= q] excludes [o > q]. *)
Lemma le_not_gt (o q : number) : le o q = true -> gt o q = false.
Proof.
  unfold le, gt, SFleb, SFltb. rewrite (SFcompare_antisym o q).
  by destruct (SFcompare o q) as [[]|].
Qed.

(** X11. A valid override at or below the quota, zero and the quota itself
    included, is the resolved threshold as given, and nothing is written to
    the console: only an override strictly above the quota is adjusted. *)
Theorem determineReenable_keeps_override (q o : number) (w : World) :
  isFinite o = true -> lt o (ofZ 0) = false -> le o q = true ->
  determineReenable (Some q) (Some o) w = (Returned (Some o), w).
Proof.
  intros Hfin Hneg Hle. unfold determineReenable.
  by rewrite Hfin, Hneg, (le_not_gt o q Hle).
Qed.

Lemma determineReenable_keeps_override_witness :
  let w := exampleWorld Null None true ∅ in
  isFinite (ofZ 100) = true /\ lt (ofZ 100) (ofZ 0) = false /\
  le (ofZ 100) (ofZ 100) = true /\
  determineReenable (Some (ofZ 100)) (Some (ofZ 100)) w
  = (Returned (Some (ofZ 100)), w).
Proof.
  intros w.
  split; [reflexivity |]. split; [reflexivity |]. split; [reflexivity |].
  exact (determineReenable_keeps_override (ofZ 100) (ofZ 100) w
           eq_refl eq_refl eq_refl).
Defined.

Lemma determineReenable_present (q o : option number) (w w' : World)
    (r : option number) :
  determineReenable q o w = (Returned r, w') ->
  present q = true -> present r = true.
Proof.
  unfold determineReenable, bind, warn, ret, throw.
  destruct o as [o|], q as [q|]; try discriminate.
  - destruct (negb (isFinite o) || lt o (ofZ 0)); [discriminate |].
    destruct (gt o q); by intros [= <- _].
  - by intros [= <- _].
Qed.

Section Resolution.
Context `{Builtins}.

Lemma parseOptionalSize_returns (value : option string) (r : option number) :
  parseOptionalSize value = Returned r ->
  match r with Some q => resolvedQuota q = true | None => True end.
Proof.
  intros E. destruct r as [q|]; [| done].
  by apply (parseOptionalSize_resolved value q).
Qed.

Lemma parseOptionalNumber_returns (value : option string) (d : number)
    (r : option number) :
  resolvedQuota d = true ->
  parseOptionalNumber value (Some d) = Returned r ->
  exists q, r = Some q /\ resolvedQuota q = true.
Proof.
  intros Hd. unfold parseOptionalNumber.
  destruct value as [s|]; [| intros [= <-]; eauto].
  destruct (String.eqb_spec s ""); [intros [= <-]; eauto |].
  intros E. destruct r as [q|].
  - exists q. split; [done |].
    apply (parseOptionalNumber_resolved s (Some d) q); [done |].
    unfold parseOptionalNumber. by destruct (String.eqb_spec s "").
  - cbv zeta in E. by destruct (negb _ || _).
Qed.

(** X12. What threshold resolution returns, when it returns: the three
    metrics storage, Class A, Class B in this order, none with a usage yet;
    every quota present is finite and above zero and comes with a re-enable
    threshold; the two request classes always have a quota. *)
Theorem normaliseThresholds_returns (env : Env) (w : World)
    (ths : list MetricThreshold) :
  fst (normaliseThresholds env w) = Returned ths ->
  map name ths = [ storage; classA; classB ] /\
  forallb wellResolved ths = true /\
  map (fun m => present (quota m)) (tl ths) = [ true; true ].
Proof.
  unfold normaliseThresholds. intros E.
  apply bind_fst_Returned in E as (q1 & w1 & E1 & E).
  apply bind_fst_Returned in E as (o1 & w2 & E2 & E).
  apply bind_fst_Returned in E as (q2 & w3 & E3 & E).
  apply bind_fst_Returned in E as (o2 & w4 & E4 & E).
  apply bind_fst_Returned in E as (q3 & w5 & E5 & E).
  apply bind_fst_Returned in E as (o3 & w6 & E6 & E).
  apply bind_fst_Returned in E as (r1 & w7 & E7 & E).
  apply bind_fst_Returned in E as (r2 & w8 & E8 & E).
  apply bind_fst_Returned in E as (r3 & w9 & E9 & E).
  simpl in E. injection E as <-.
  unfold lift in E1, E3, E5.
  injection E1 as E1 _. injection E3 as E3 _. injection E5 as E5 _.
  apply parseOptionalSize_returns in E1.
  apply parseOptionalNumber_returns in E3 as (a & -> & Ha); [| reflexivity].
  apply parseOptionalNumber_returns in E5 as (b & -> & Hb); [| reflexivity].
  pose proof (determineReenable_present _ _ _ _ _ E8 eq_refl) as P2.
  pose proof (determineReenable_present _ _ _ _ _ E9 eq_refl) as P3.
  split; [reflexivity |]. split; [| reflexivity].
  unfold wellResolved. simpl. rewrite Ha, Hb, P2, P3. simpl.
  destruct q1 as [q|]; [| reflexivity].
  rewrite E1, (determineReenable_present _ _ _ _ _ E7 eq_refl). reflexivity.
Qed.

End Resolution.

Lemma normaliseThresholds_returns_witness :
  let w := exampleWorld Null None true ∅ in
  let env := exampleEnv (Some "2 kb") None in
  exists ths,
    fst (@normaliseThresholds Reference.builtins env w) = Returned ths /\
    map quota ths = [ Some (ofZ 2048); Some (ofZ 1000000); Some (ofZ 10000000) ] /\
    forallb wellResolved ths = true.
Proof.
  intros w env. eexists. split; [reflexivity |]. split; [reflexivity |].
  exact (proj1 (proj2 (@normaliseThresholds_returns Reference.builtins env w _
                         eq_refl))).
Defined.

(* ===================================================================== *)
(** * Further properties of a run *)
(* ===================================================================== *)

Lemma sameRemote_refl (w : World) : sameRemote w w.
Proof. by repeat split. Qed.

Lemma sameStore_sameRemote (w w' : World) : sameStore w w' -> sameRemote w w'.
Proof. intros (? & ? & ? & ? & _). by repeat split. Qed.

Lemma sameRemote_trans (w1 w2 w3 : World) :
  sameRemote w1 w2 -> sameRemote w2 w3 -> sameRemote w1 w3.
Proof.
  intros (a1 & a2 & a3 & a4) (b1 & b2 & b3 & b4). repeat split; congruence.
Qed.

Lemma sameRemote_sym (w1 w2 : World) : sameRemote w1 w2 -> sameRemote w2 w1.
Proof. intros (a1 & a2 & a3 & a4). by repeat split. Qed.

Lemma remoteOnly_ret {A} (a : A) : remoteOnly (ret a).
Proof. by intros w w' R. Qed.

Lemma remoteOnly_throw {A} (e : string) : remoteOnly (@throw A e).
Proof. by intros w w' R. Qed.

Lemma remoteOnly_lift {A} (o : outcome A) : remoteOnly (lift o).
Proof. by intros w w' R. Qed.

Lemma remoteOnly_send (r : Request) : remoteOnly (send r).
Proof. intros w w' (?&?&?&?). by repeat split. Qed.

Lemma remoteOnly_warn (line : string) : remoteOnly (warn line).
Proof. intros w w' (?&?&?&?). by repeat split. Qed.

Lemma remoteOnly_ask_usage : remoteOnly (ask usageResponse).
Proof. intros w w' R. split; [| exact R]. simpl. by rewrite (proj1 R). Qed.

Lemma remoteOnly_ask_accessKey : remoteOnly (ask accessKeyResponse).
Proof.
  intros w w' R. split; [| exact R]. simpl. by rewrite (proj1 (proj2 R)).
Qed.

Lemma remoteOnly_bind {A B} (t : Task A) (k : A -> Task B) :
  remoteOnly t -> (forall a, remoteOnly (k a)) -> remoteOnly (bind t k).
Proof.
  intros Ht Hk w w' R. unfold bind.
  destruct (Ht w w' R) as [Ef Rs].
  destruct (t w) as [[a|e] w1], (t w') as [[a'|e'] w1']; simpl in *;
    try discriminate.
  - injection Ef as ->. by apply Hk.
  - injection Ef as ->. by split.
Qed.

Lemma remoteOnly_when (c : bool) (t : Task unit) :
  remoteOnly t -> remoteOnly (when c t).
Proof. intros Ht. destruct c; [exact Ht | apply remoteOnly_ret]. Qed.

Ltac remote_step :=
  first
    [ apply remoteOnly_ret | apply remoteOnly_throw | apply remoteOnly_lift
    | apply remoteOnly_ask_usage | apply remoteOnly_ask_accessKey
    | apply remoteOnly_warn | apply remoteOnly_send | apply remoteOnly_when
    | apply remoteOnly_bind; [| intros ?]
    | match goal with
      | |- remoteOnly (if ?c then _ else _) => destruct c
      | |- remoteOnly (match ?x with _ => _ end) => destruct x
      end ].

Lemma remoteOnly_fetchR2Usage (env : Env) : remoteOnly (fetchR2Usage env).
Proof. unfold fetchR2Usage. repeat remote_step. Qed.

Lemma remoteOnly_fetchAccessKeyStatus (env : Env) :
  remoteOnly (fetchAccessKeyStatus env).
Proof. unfold fetchAccessKeyStatus. repeat remote_step. Qed.

Lemma sendsNothing_ret {A} (a : A) : sendsNothing (ret a).
Proof. by intros w. Qed.

Lemma sendsNothing_throw {A} (e : string) : sendsNothing (@throw A e).
Proof. by intros w. Qed.

Lemma sendsNothing_lift {A} (o : outcome A) : sendsNothing (lift o).
Proof. by intros w. Qed.

Lemma sendsNothing_warn (line : string) : sendsNothing (warn line).
Proof. by intros w. Qed.

Lemma sendsNothing_bind {A B} (t : Task A) (k : A -> Task B) :
  sendsNothing t -> (forall a, sendsNothing (k a)) -> sendsNothing (bind t k).
Proof.
  intros Ht Hk w. unfold bind. specialize (Ht w).
  destruct (t w) as [[a|e] w1]; simpl in *; [| done].
  by rewrite (Hk a w1).
Qed.

Ltac quiet_step :=
  first
    [ apply sendsNothing_ret | apply sendsNothing_throw | apply sendsNothing_lift
    | apply sendsNothing_warn
    | apply sendsNothing_bind; [| intros ?]
    | match goal with
      | |- sendsNothing (if ?c then _ else _) => destruct c
      | |- sendsNothing (match ?x with _ => _ end) => destruct x
      end ].

Lemma fetchR2Usage_world (env : Env) (w : World) :
  snd (fetchR2Usage env w) = withRequest (getUsageRequest env) w.
Proof.
  unfold fetchR2Usage, bind, send, ask. simpl.
  destruct (negb (ok (usageResponse w))); [reflexivity |].
  by destruct (extractUsageBytes _), (extractClassARequests _),
    (extractClassBRequests _).
Qed.

Lemma fetchAccessKeyStatus_world (env : Env) (w : World) :
  snd (fetchAccessKeyStatus env w) = withRequest (getAccessKeyRequest env) w.
Proof.
  unfold fetchAccessKeyStatus, bind, send, ask. simpl.
  destruct (negb (ok (accessKeyResponse w))); [reflexivity |].
  by destruct (payload (accessKeyResponse w)) as [[[[[s|]]|]]|].
Qed.

Section RunProperties.
Context `{Builtins}.

Lemma remoteOnly_determineReenable (q o : option number) :
  remoteOnly (determineReenable q o).
Proof. unfold determineReenable. repeat remote_step. Qed.

Lemma remoteOnly_normaliseThresholds (env : Env) :
  remoteOnly (normaliseThresholds env).
Proof.
  unfold normaliseThresholds.
  repeat first [ apply remoteOnly_determineReenable | remote_step ].
Qed.

Lemma sendsNothing_determineReenable (q o : option number) :
  sendsNothing (determineReenable q o).
Proof. unfold determineReenable. repeat quiet_step. Qed.

Lemma sendsNothing_normaliseThresholds (env : Env) :
  sendsNothing (normaliseThresholds env).
Proof.
  unfold normaliseThresholds.
  repeat first [ apply sendsNothing_determineReenable | quiet_step ].
Qed.

End RunProperties.

Section RunTheorems.
Context `{Builtins}.

(** [gatherInputs] step by step. *)
Lemma gatherInputs_unfold (env : Env) (w : World) :
  gatherInputs env w
  = if String.eqb (CF_ACCOUNT_ID env) ""
    then (Thrown "Missing CF_ACCOUNT_ID environment variable", w)
    else if String.eqb (CF_API_TOKEN env) ""
    then (Thrown "Missing CF_API_TOKEN secret", w)
    else if String.eqb (R2_ACCESS_KEY_ID env) ""
    then (Thrown "Missing R2_ACCESS_KEY_ID environment variable", w)
    else
      match fetchR2Usage env w with
      | (Thrown e, w1) => (Thrown e, w1)
      | (Returned usage, w1) =>
          match normaliseThresholds env w1 with
          | (Thrown e, w2) => (Thrown e, w2)
          | (Returned resolved, w2) =>
              match resolveCurrentStatus env (STATE_KV w1 !! STATE_KEY) w2 with
              | (Thrown e, w3) => (Thrown e, w3)
              | (Returned cur, w3) =>
                  (Returned (usage, map (assignUsage usage) resolved, cur), w3)
              end
          end
      end.
Proof.
  unfold gatherInputs, bind, when, throw, kvGet.
  destruct (String.eqb (CF_ACCOUNT_ID env) ""); [reflexivity |].
  destruct (String.eqb (CF_API_TOKEN env) ""); [reflexivity |].
  destruct (String.eqb (R2_ACCESS_KEY_ID env) ""); [reflexivity |].
  cbn [ret]. destruct (fetchR2Usage env w) as [[usage|e] w1]; [| reflexivity].
  destruct (normaliseThresholds env w1) as [[resolved|e] w2]; [| reflexivity].
  by destruct (resolveCurrentStatus env _ w2) as [[cur|e] w3].
Qed.

Lemma runQuotaController_unfold (env : Env) (w : World) :
  runQuotaController env w
  = match gatherInputs env w with
    | (Returned (usage, ths, cur), w1) =>
        applyDecision env usage ths cur (now w1) (evaluate cur ths) w1
    | (Thrown e, w1) => (Thrown e, w1)
    end.
Proof.
  unfold runQuotaController, bind, ask.
  by destruct (gatherInputs env w) as [[[[usage ths] cur]|e] w1].
Qed.

(** What [applyDecision] does to the world. *)
Lemma applyDecision_effects (env : Env) (usage : UsageSnapshot)
    (ths : list MetricThreshold) (cur : AccessKeyStatus) (ts : string)
    (d : Decision) (w : World) :
  let after := applyDecision env usage ths cur ts d w in
  sameRemote w (snd after) /\
  (forall k, k <> STATE_KEY -> STATE_KV (snd after) !! k = STATE_KV w !! k) /\
  requests (snd after)
  = (requests w ++ if statusEqb (desiredStatus d) cur then []
                   else [setStatusRequest env (desiredStatus d)])%list /\
  match fst after with
  | Returned result =>
      rr_accessKeyStatus result = desiredStatus d /\
      accessKeyStatus <$> (STATE_KV (snd after) !! STATE_KEY)
      = Some (desiredStatus d)
  | Thrown _ =>
      STATE_KV (snd after) = STATE_KV w /\
      statusEqb (desiredStatus d) cur = false
  end.
Proof.
  unfold applyDecision, bind, when.
  destruct (statusEqb (desiredStatus d) cur); cbn [negb].
  - simpl. rewrite app_nil_r, lookup_insert_eq.
    repeat split. intros k Hk. by rewrite lookup_insert_ne.
  - rewrite updateAccessKeyStatus_run.
    destruct (ok (updateResponse w (desiredStatus d))); simpl.
    + rewrite lookup_insert_eq. repeat split.
      intros k Hk. by rewrite lookup_insert_ne.
    + by repeat split.
Qed.

Lemma run_failure_store (env : Env) (w : World) (e : string) :
  fst (runQuotaController env w) = Thrown e ->
  STATE_KV (snd (runQuotaController env w)) = STATE_KV w.
Proof.
  rewrite runQuotaController_unfold.
  destruct (gentle_gatherInputs env w) as [(_ & _ & _ & _ & Hkv) _].
  destruct (gatherInputs env w) as [[[[usage ths] cur]|e'] w1]; simpl in Hkv.
  - pose proof (applyDecision_effects env usage ths cur (now w1)
                  (evaluate cur ths) w1) as (_ & _ & _ & Hout).
    intros Hf. rewrite Hf in Hout. destruct Hout as [-> _]. exact Hkv.
  - intros _. exact Hkv.
Qed.

(** X13. A run that fails, for whatever reason, leaves the KV namespace as
    it was. *)
Theorem failed_run_keeps_store (env : Env) (w : World) (e : string) :
  fst (runQuotaController env w) = Thrown e ->
  STATE_KV (snd (runQuotaController env w)) = STATE_KV w.
Proof. apply run_failure_store. Qed.

(** X14. A run, whether it returns or fails, writes at most the entry under
    the state key: every other entry of the KV namespace is as before. *)
Theorem run_touches_only_state_key (env : Env) (w : World) (k : string) :
  k <> STATE_KEY ->
  STATE_KV (snd (runQuotaController env w)) !! k = STATE_KV w !! k.
Proof.
  intros Hk. rewrite runQuotaController_unfold.
  destruct (gentle_gatherInputs env w) as [(_ & _ & _ & _ & Hkv) _].
  destruct (gatherInputs env w) as [[[[usage ths] cur]|e'] w1]; simpl in Hkv.
  - pose proof (applyDecision_effects env usage ths cur (now w1)
                  (evaluate cur ths) w1) as (_ & Hother & _).
    by rewrite (Hother k Hk), Hkv.
  - simpl. by rewrite Hkv.
Qed.

(** X15. With one of the three identifiers missing, the run throws before
    anything else happens: no request is sent and the world is unchanged. *)
Theorem missing_configuration_stops (env : Env) (w : World) :
  configured env = false ->
  snd (runQuotaController env w) = w /\
  exists e, fst (runQuotaController env w) = Thrown e /\
            mentions e "Missing " = true.
Proof.
  unfold configured. intros Hc.
  rewrite runQuotaController_unfold, gatherInputs_unfold.
  destruct (String.eqb (CF_ACCOUNT_ID env) ""); [by eauto |].
  destruct (String.eqb (CF_API_TOKEN env) ""); [by eauto |].
  destruct (String.eqb (R2_ACCESS_KEY_ID env) ""); [by eauto |].
  discriminate.
Qed.

(** The requests [gatherInputs] sends when it returns, and the status it
    takes from a stored snapshot. *)
Lemma gatherInputs_requests (env : Env) (w : World) (usage : UsageSnapshot)
    (ths : list MetricThreshold) (cur : AccessKeyStatus) :
  fst (gatherInputs env w) = Returned (usage, ths, cur) ->
  requests (snd (gatherInputs env w))
  = (requests w ++ getUsageRequest env
       :: match STATE_KV w !! STATE_KEY with
          | Some _ => []
          | None => [ getAccessKeyRequest env ]
          end)%list /\
  (forall st, STATE_KV w !! STATE_KEY = Some st -> cur = accessKeyStatus st).
Proof.
  rewrite gatherInputs_unfold.
  destruct (String.eqb (CF_ACCOUNT_ID env) ""); [discriminate |].
  destruct (String.eqb (CF_API_TOKEN env) ""); [discriminate |].
  destruct (String.eqb (R2_ACCESS_KEY_ID env) ""); [discriminate |].
  pose proof (fetchR2Usage_world env w) as Hw1.
  destruct (fetchR2Usage env w) as [[usage'|e] w1]; [| discriminate].
  simpl in Hw1. subst w1.
  pose proof (sendsNothing_normaliseThresholds env
                (withRequest (getUsageRequest env) w)) as Hq.
  destruct (normaliseThresholds env _) as [[resolved|e] w2]; [| discriminate].
  simpl in Hq. change (STATE_KV (withRequest _ w)) with (STATE_KV w).
  destruct (STATE_KV w !! STATE_KEY) as [st|]; simpl.
  - intros [= <- <- <-]. split; [exact Hq |]. by intros st' [= <-].
  - pose proof (fetchAccessKeyStatus_world env w2) as Hw3.
    destruct (fetchAccessKeyStatus env w2) as [[cur'|e] w3]; [| discriminate].
    simpl in Hw3. subst w3. intros [= <- <- <-]. split; [| done].
    simpl. rewrite Hq. simpl. by rewrite <- app_assoc.
Qed.

(** X16. The requests of a run that reaches its decision, in order: the
    usage lookup; the access-key lookup only when no snapshot is stored;
    the set-status call only when the state changes.  With a snapshot
    stored the current status is the stored one and the access controller
    is not asked. *)
Theorem run_request_trace (env : Env) (w : World) (usage : UsageSnapshot)
    (ths : list MetricThreshold) (cur : AccessKeyStatus) :
  fst (gatherInputs env w) = Returned (usage, ths, cur) ->
  requests (snd (runQuotaController env w))
  = (requests w
       ++ [ getUsageRequest env ]
       ++ match STATE_KV w !! STATE_KEY with
          | Some _ => []
          | None => [ getAccessKeyRequest env ]
          end
       ++ if statusEqb (desiredStatus (evaluate cur ths)) cur then []
          else [ setStatusRequest env (desiredStatus (evaluate cur ths)) ])%list /\
  (forall st, STATE_KV w !! STATE_KEY = Some st -> cur = accessKeyStatus st).
Proof.
  intros Hin.
  destruct (gatherInputs_requests env w usage ths cur Hin) as [Hreq Hcur].
  split; [| exact Hcur].
  rewrite runQuotaController_unfold.
  destruct (gatherInputs env w) as [[[[usage' ths'] cur']|e] w1];
    simpl in Hin; [| discriminate].
  injection Hin as -> -> ->. simpl in Hreq.
  pose proof (applyDecision_effects env usage ths cur (now w1)
                (evaluate cur ths) w1) as (_ & _ & -> & _).
  rewrite Hreq. by rewrite <- !app_assoc.
Qed.

(** With the same remote answers and a snapshot stored, [gatherInputs]
    finds the same usage and thresholds and takes the stored status. *)
Lemma gatherInputs_with_snapshot (env : Env) (w w' : World)
    (usage : UsageSnapshot) (ths : list MetricThreshold)
    (cur : AccessKeyStatus) (st : StoredState) :
  sameRemote w w' ->
  fst (gatherInputs env w) = Returned (usage, ths, cur) ->
  STATE_KV w' !! STATE_KEY = Some st ->
  fst (gatherInputs env w') = Returned (usage, ths, accessKeyStatus st).
Proof.
  intros R Hin Hst. rewrite gatherInputs_unfold in Hin |- *.
  destruct (String.eqb (CF_ACCOUNT_ID env) ""); [discriminate |].
  destruct (String.eqb (CF_API_TOKEN env) ""); [discriminate |].
  destruct (String.eqb (R2_ACCESS_KEY_ID env) ""); [discriminate |].
  destruct (remoteOnly_fetchR2Usage env w w' R) as [Ef Rs].
  pose proof (fetchR2Usage_world env w') as Hw1.
  destruct (fetchR2Usage env w) as [[u|e] w1]; [| discriminate].
  destruct (fetchR2Usage env w') as [o1 w1']. simpl in Ef, Rs, Hw1. subst o1 w1'.
  destruct (remoteOnly_normaliseThresholds env w1 _ Rs) as [En _].
  destruct (normaliseThresholds env w1) as [[resolved|e] w2]; [| discriminate].
  destruct (normaliseThresholds env (withRequest _ w')) as [o2 w2'].
  simpl in En. subst o2.
  change (STATE_KV (withRequest (getUsageRequest env) w')) with (STATE_KV w').
  rewrite Hst. simpl.
  destruct (resolveCurrentStatus env _ w2) as [[c|e] w3]; [| discriminate].
  simpl in Hin. by injection Hin as <- <- _.
Qed.

(** X17. Running again settles: after a run that returned, a second run
    against the same remote answers returns the same status and makes no
    set-status call. *)
Theorem second_run_settles (env : Env) (w : World) (result : RunResult) :
  fst (runQuotaController env w) = Returned result ->
  let w' := snd (runQuotaController env w) in
  exists result',
    fst (runQuotaController env w') = Returned result' /\
    rr_accessKeyStatus result' = rr_accessKeyStatus result /\
    updateCalls (snd (runQuotaController env w')) = updateCalls w'.
Proof.
  intros Hrun w'. subst w'. rewrite (runQuotaController_unfold env w) in Hrun |- *.
  destruct (gentle_gatherInputs env w) as [Hs _].
  destruct (gatherInputs env w) as [[[[usage ths] cur]|e] w1] eqn:G;
    [| discriminate].
  simpl in Hs.
  pose proof (applyDecision_effects env usage ths cur (now w1)
                (evaluate cur ths) w1) as (Rem & _ & _ & Hout).
  set (w' := snd (applyDecision env usage ths cur (now w1) (evaluate cur ths) w1))
    in *.
  rewrite Hrun in Hout. destruct Hout as [Hstatus Hkv].
  destruct (STATE_KV w' !! STATE_KEY) as [st|] eqn:Hst; [| discriminate].
  simpl in Hkv. injection Hkv as Hst'.
  assert (R : sameRemote w w')
    by (eapply sameRemote_trans; [apply sameStore_sameRemote, Hs | exact Rem]).
  assert (Hin : fst (gatherInputs env w) = Returned (usage, ths, cur))
    by (by rewrite G).
  pose proof (gatherInputs_with_snapshot env w w' usage ths cur st R Hin Hst) as Hin'.
  rewrite Hst' in Hin'.
  destruct (gentle_gatherInputs env w') as [_ Hcalls].
  rewrite (runQuotaController_unfold env w').
  destruct (gatherInputs env w') as [[[[usage' ths'] cur']|e] w1'];
    simpl in Hin'; [| discriminate].
  injection Hin' as -> -> ->. simpl in Hcalls.
  rewrite applyDecision_updateCalls.
  pose proof (applyDecision_effects env usage ths
                (desiredStatus (evaluate cur ths)) (now w1')
                (evaluate (desiredStatus (evaluate cur ths)) ths) w1')
    as (_ & _ & _ & Hout).
  rewrite desiredStatus_stable in Hout |- *.
  assert (Eq : statusEqb (desiredStatus (evaluate cur ths))
                 (desiredStatus (evaluate cur ths)) = true)
    by (by apply statusEqb_eq).
  rewrite Eq in Hout |- *.
  destruct (fst (applyDecision _ _ _ _ _ _ w1')) as [result'|e];
    [| destruct Hout; discriminate].
  exists result'. split; [reflexivity |]. split.
  - destruct Hout as [-> _]. by rewrite Hstatus.
  - by rewrite app_nil_r.
Qed.

End RunTheorems.

Lemma failed_run_keeps_store_witness :
  let env := exampleEnv (Some "one gigabyte") None in
  let w := exampleWorld (usagePayload 5 10 10) None true
             {[ STATE_KEY := storedWith disabled ]} in
  fst (@runQuotaController Reference.builtins env w)
  = Thrown "Invalid quota configuration (size value)" /\
  STATE_KV (snd (@runQuotaController Reference.builtins env w)) = STATE_KV w.
Proof.
  intros env w.
  assert (E : fst (@runQuotaController Reference.builtins env w)
              = Thrown "Invalid quota configuration (size value)")
    by (vm_compute; reflexivity).
  split; [exact E |].
  exact (@failed_run_keeps_store Reference.builtins env w _ E).
Defined.

Lemma run_touches_only_state_key_witness :
  let env := exampleEnv None None in
  let w := exampleWorld (usagePayload 5 2000000 10) None true
             {[ "other" := storedWith disabled ]} in
  "other" <> STATE_KEY /\
  STATE_KV (snd (@runQuotaController Reference.builtins env w)) !! "other"
  = Some (storedWith disabled).
Proof.
  intros env w. split; [discriminate |].
  rewrite (@run_touches_only_state_key Reference.builtins env w "other"
             ltac:(discriminate)).
  reflexivity.
Defined.

Lemma missing_configuration_stops_witness :
  let env :=
    {| CF_ACCOUNT_ID := "account"; CF_API_TOKEN := ""; R2_ACCESS_KEY_ID := "key";
       QUOTA_BYTES := Some "1GB"; REENABLE_THRESHOLD := None;
       CLASS_A_QUOTA := None; CLASS_A_REENABLE_THRESHOLD := None;
       CLASS_B_QUOTA := None; CLASS_B_REENABLE_THRESHOLD := None |} in
  let w := exampleWorld (usagePayload 5 10 10) None true ∅ in
  configured env = false /\
  snd (@runQuotaController Reference.builtins env w) = w.
Proof.
  intros env w. split; [reflexivity |].
  exact (proj1 (@missing_configuration_stops Reference.builtins env w eq_refl)).
Defined.

Lemma run_request_trace_witness :
  let env := exampleEnv (Some "1GB") None in
  let w := exampleWorld (usagePayload 1073741824 10 10) None true ∅ in
  fst (@gatherInputs Reference.builtins env w)
  = Returned (exampleUsage, exampleThresholds, enabled) /\
  requests (snd (@runQuotaController Reference.builtins env w))
  = [ getUsageRequest env; getAccessKeyRequest env; setStatusRequest env disabled ].
Proof.
  intros env w.
  assert (Hin : fst (@gatherInputs Reference.builtins env w)
                = Returned (exampleUsage, exampleThresholds, enabled))
    by reflexivity.
  split; [exact Hin |].
  rewrite (proj1 (@run_request_trace Reference.builtins env w exampleUsage
                    exampleThresholds enabled Hin)).
  reflexivity.
Defined.

Lemma second_run_settles_witness :
  let env := exampleEnv (Some "1GB") None in
  exists result result',
    fst (exampleRun true enabled) = Returned result /\
    fst (@runQuotaController Reference.builtins env (snd (exampleRun true enabled)))
    = Returned result' /\
    rr_accessKeyStatus result' = rr_accessKeyStatus result.
Proof.
  intros env. eexists.
  assert (E : fst (exampleRun true enabled) = Returned _)
    by (vm_compute; reflexivity).
  destruct (@second_run_settles Reference.builtins env _ _ E)
    as (result' & E' & Hs & _).
  exists result'. split; [exact E |]. split; [exact E' | exact Hs].
Defined.

Section Reports.
Context `{Builtins}.

(** X22. A run that returns reports the state the evaluator decides from
    the gathered inputs, with the message built from its reasons, and the
    snapshot it stores under the state key carries that same state. *)
Theorem run_reports_and_stores (env : Env) (w : World) (usage : UsageSnapshot)
    (ths : list MetricThreshold) (cur : AccessKeyStatus) (result : RunResult) :
  fst (gatherInputs env w) = Returned (usage, ths, cur) ->
  fst (runQuotaController env w) = Returned result ->
  rr_accessKeyStatus result = desiredStatus (evaluate cur ths) /\
  rr_message result = messageOf cur (evaluate cur ths) /\
  accessKeyStatus <$> (STATE_KV (snd (runQuotaController env w)) !! STATE_KEY)
  = Some (desiredStatus (evaluate cur ths)).
Proof. apply run_reports_decision. Qed.

End Reports.

(** X23. On a number, [determineReenable] throws exactly when the override
    is not finite or is below zero, whatever the quota; zero and negative
    zero are accepted. *)
Theorem determineReenable_validation (q : option number) (o : number) (w : World) :
  ((exists e, fst (determineReenable q (Some o) w) = Thrown e)
   <-> isFinite o = false \/ lt o (ofZ 0) = true) /\
  (forall s, exists r w',
     determineReenable q (Some (S754_zero s)) w = (Returned (Some r), w')).
Proof.
  split; [apply determineReenable_rejects_iff |].
  intros s. unfold determineReenable.
  destruct q as [q|]; [| by destruct s; eauto].
  assert (lt (S754_zero s) (ofZ 0) = false) as -> by by destruct s.
  cbn [isFinite negb orb].
  destruct (gt (S754_zero s) q); unfold bind, warn, ret; eauto.
Qed.

Lemma run_reports_and_stores_witness :
  let env := exampleEnv (Some "1GB") None in
  let w := exampleWorld (usagePayload 1073741824 10 10) None true
             {[ STATE_KEY := storedWith enabled ]} in
  exists result,
    fst (@gatherInputs Reference.builtins env w)
    = Returned (exampleUsage, exampleThresholds, enabled) /\
    fst (@runQuotaController Reference.builtins env w) = Returned result /\
    rr_accessKeyStatus result = desiredStatus (evaluate enabled exampleThresholds).
Proof.
  intros env w. eexists.
  assert (Hin : fst (@gatherInputs Reference.builtins env w)
                = Returned (exampleUsage, exampleThresholds, enabled))
    by reflexivity.
  assert (E : fst (@runQuotaController Reference.builtins env w) = Returned _)
    by (vm_compute; reflexivity).
  split; [exact Hin |]. split; [exact E |].
  exact (proj1 (@run_reports_and_stores Reference.builtins env w exampleUsage
                  exampleThresholds enabled _ Hin E)).
Defined.

(* ===================================================================== *)
(** * Formatting and the HTTP entry point *)
(* ===================================================================== *)

Lemma scaleBytes_index (fuel : nat) (v : number) (i : nat) :
  i <= 5 -> snd (scaleBytes fuel v i) <= 5.
Proof.
  revert v i. induction fuel as [|fuel IH]; intros v i Hi; cbn [scaleBytes];
    [done |].
  destruct (ge v (ofZ 1024)); cbn [andb]; [| done].
  change (length units - 1) with 5.
  destruct (Nat.ltb_spec i 5); [| done].
  apply IH. lia.
Qed.

Lemma scaleBytes_fuel (fuel : nat) (v : number) (i : nat) :
  5 <= i + fuel -> scaleBytes (S fuel) v i = scaleBytes fuel v i.
Proof.
  revert v i. induction fuel as [|fuel IH]; intros v i Hi.
  - cbn [scaleBytes]. destruct (ge v (ofZ 1024)); cbn [andb]; [| done].
    change (length units - 1) with 5.
    destruct (Nat.ltb_spec i 5); [lia | done].
  - change (scaleBytes (S (S fuel)) v i)
      with (if ge v (ofZ 1024) && (i <? length units - 1)%nat
            then scaleBytes (S fuel) (div v (ofZ 1024)) (i + 1)
            else (v, i)).
    rewrite IH by lia. reflexivity.
Qed.

Section Formatting.
Context `{Builtins}.

(** X18. [formatBytes] prints "unknown" for a value that is not finite;
    otherwise it divides by 1024 at most five times, so that the unit is
    always one of B, KB, MB, GB, TB, PB, and the number is printed without
    decimals exactly when the unit is B.  Running the loop longer changes
    nothing. *)
Theorem formatBytes_shape (bytes : number) :
  (isFinite bytes = false -> formatBytes bytes = "unknown") /\
  (isFinite bytes = true ->
   exists value unitIndex,
     scaleBytes 5 bytes 0 = (value, unitIndex) /\
     unitIndex <= 5 /\
     (forall fuel, 5 <= fuel -> scaleBytes fuel bytes 0 = (value, unitIndex)) /\
     formatBytes bytes
     = toFixed value (if (unitIndex =? 0)%nat then 0 else 2)
         ++ " " ++ nth unitIndex units "") /\
  (isFinite bytes = true -> ge bytes (ofZ 1024) = false ->
   formatBytes bytes = toFixed bytes 0 ++ " B").
Proof.
  assert (Hfuel : forall fuel, 5 <= fuel ->
                    scaleBytes fuel bytes 0 = scaleBytes 5 bytes 0).
  { intros fuel Hf. induction Hf as [|fuel Hf IH]; [reflexivity |].
    rewrite scaleBytes_fuel by lia. exact IH. }
  split; [| split].
  - intros Hf. unfold formatBytes. by rewrite Hf.
  - intros Hf. pose proof (scaleBytes_index 5 bytes 0 ltac:(lia)) as Hi.
    destruct (scaleBytes 5 bytes 0) as [value unitIndex] eqn:E.
    exists value, unitIndex. simpl in Hi.
    split; [reflexivity |]. split; [exact Hi |].
    split; [intros fuel Hfu; by rewrite Hfuel |].
    unfold formatBytes. rewrite Hf. cbn [negb].
    rewrite (Hfuel (length units) ltac:(simpl; lia)).
    do 2 f_equal.
    do 6 (destruct unitIndex as [|unitIndex]; [reflexivity |]). simpl in Hi. lia.
  - intros Hf Hsmall. unfold formatBytes. rewrite Hf. cbn [negb].
    change (length units) with 6. cbn [scaleBytes]. rewrite Hsmall. reflexivity.
Qed.

End Formatting.

Lemma formatBytes_shape_witness :
  isFinite (ofZ 1536) = true /\
  @formatBytes Reference.builtins (ofZ 1536) = "1.50 KB".
Proof.
  split; [reflexivity |].
  destruct (proj1 (proj2 (@formatBytes_shape Reference.builtins (ofZ 1536))) eq_refl)
    as (value & unitIndex & E & _ & _ & ->).
  vm_compute in E. injection E as <- <-. reflexivity.
Defined.

Section HandlerProperties.
Context `{Builtins} `{Serializer}.

(** X19. The HTTP handler never throws, and its status tells what happened
    to the store: it answers 200 only for a GET whose run returned, with
    the serialised summary of that run as body; with any other status (405
    for another method, 500 for a failed run) the KV namespace is as it
    was, and for another method nothing at all was done. *)
Theorem handleFetch_status (requestMethod : string) (env : Env) (w : World) :
  exists response,
    fst (handleFetch requestMethod env w) = Returned response /\
    (res_status response = 200 ->
     requestMethod = "GET" /\
     exists summary,
       runQuotaController env w = (Returned summary, snd (handleFetch requestMethod env w)) /\
       res_body response = stringifySummary summary) /\
    (res_status response <> 200 ->
     STATE_KV (snd (handleFetch requestMethod env w)) = STATE_KV w) /\
    (requestMethod <> "GET" ->
     res_status response = 405 /\ snd (handleFetch requestMethod env w) = w).
Proof.
  unfold handleFetch.
  destruct (String.eqb_spec requestMethod "GET") as [-> | Hm]; cbn [negb].
  - pose proof (run_failure_store env w) as Hfail.
    destruct (runQuotaController env w) as [[summary|e] w1]; simpl in *.
    + eexists. split; [reflexivity |]. simpl.
      split; [intros _; split; [done | by exists summary] |].
      split; [done | done].
    + eexists. split; [reflexivity |]. simpl.
      split; [discriminate |]. split; [intros _; by apply (Hfail e) | done].
  - eexists. split; [reflexivity |]. simpl.
    split; [discriminate |]. by split.
Qed.

End HandlerProperties.

(* ===================================================================== *)
(** * Two more facts about the search *)
(* ===================================================================== *)

(** X20. The second loop of an iteration, over the items of a nested array,
    never decides anything: the recursive call on the array has already
    visited every item, so the iteration gives the same result without
    that loop. *)
Theorem inner_array_loop_redundant (keys : list string) (key : string)
    (nested : value) (next : option number) :
  visitEntry keys key nested (findFirstNumberByKeys nested keys)
    (innerLoop keys nested) next
  = visitEntry keys key nested (findFirstNumberByKeys nested keys) None next.
Proof.
  rewrite visitEntry_eq. unfold visitEntry.
  destruct (if includes keys key then finiteNumber nested else None);
    [reflexivity |].
  destruct (typeofObject nested) eqn:Ht.
  - destruct (findFirstNumberByKeys nested keys); [reflexivity |].
    by destruct nested.
  - rewrite (findFirstNumberByKeys_scalar keys nested Ht). by destruct nested.
Qed.

Lemma findFirstNumberByKeys_keys (keys keys' : list string) (v : value) :
  (forall k, includes keys k = includes keys' k) ->
  findFirstNumberByKeys v keys = findFirstNumberByKeys v keys'.
Proof.
  intros Hk.
  induction v as [| b | m | s | items IH | fields IH] using value_ind';
    try reflexivity.
  - rewrite !findFirstNumberByKeys_Arr. generalize 0.
    induction IH as [|item rest Hitem _ IHrest]; intros i; simpl; [reflexivity |].
    by rewrite !visitEntry_eq, Hk, Hitem, IHrest.
  - rewrite !findFirstNumberByKeys_Obj.
    induction IH as [|[key nested] rest Hnested _ IHrest]; simpl; [reflexivity |].
    simpl in Hnested. by rewrite !visitEntry_eq, Hk, Hnested, IHrest.
Qed.

(** X21. The candidate keys act as a set: two lists with the same members,
    in whatever order and with whatever repetitions, extract the same value
    from every payload.  Which field wins is settled by the order of the
    payload alone. *)
Theorem extractMetric_keys_as_set (keys keys' : list string) (payload : value) :
  (forall k, includes keys k = includes keys' k) ->
  extractMetric payload keys = extractMetric payload keys'.
Proof.
  intros Hk. unfold extractMetric.
  destruct payload as [| b | m | s | items | fields]; try reflexivity;
    by apply findFirstNumberByKeys_keys.
Qed.

Lemma includes_rev (keys : list string) (k : string) :
  includes (rev keys) k = includes keys k.
Proof.
  unfold includes. induction keys as [|x keys IH]; [reflexivity |].
  simpl. rewrite existsb_app, IH. simpl. rewrite orb_false_r. apply orb_comm.
Qed.

Lemma extractMetric_keys_as_set_witness :
  let p := Obj [ ("storage_bytes", Num (ofZ 1)); ("usageBytes", Num (ofZ 2)) ] in
  (forall k, includes (rev CANDIDATE_USAGE_KEYS) k = includes CANDIDATE_USAGE_KEYS k) /\
  extractMetric p (rev CANDIDATE_USAGE_KEYS) = Some (ofZ 1) /\
  extractMetric p CANDIDATE_USAGE_KEYS = Some (ofZ 1).
Proof.
  intros p. split; [apply includes_rev |]. split; [| reflexivity].
  rewrite (extractMetric_keys_as_set (rev CANDIDATE_USAGE_KEYS)
             CANDIDATE_USAGE_KEYS p (includes_rev CANDIDATE_USAGE_KEYS)).
  reflexivity.
Defined.
